(** * TensorBase ([tensorbase/base.py]): batching, configuration and layer naming

    A shallow embedding of the parts of [Data], [Model] and [Layers] that do
    not live inside TensorFlow: the epoch cursors, the configuration merge,
    the slim-restore selection and the scope names of the layer builder.
    Python objects are records, methods are functions in a state-and-exception
    monad over the object (plus the text written to standard output), numpy
    float64 arithmetic is Rocq's primitive binary64 arithmetic. *)

From Stdlib Require Import ZArith List String Ascii Floats QArith Qabs Lia Lqa Permutation Bool.
From stdpp Require Import base tactics option list strings gmap pretty.

Set Warnings "-register-all".

Close Scope Q_scope.
Open Scope string_scope.
Open Scope Z_scope.

(** ** Python runtime: exceptions, outcomes, methods *)

Module Py.

(** The exceptions the modelled code can raise. [SystemExit] is what the
    builtin [exit()] raises to end the process. *)
Inductive exception : Type :=
| AssertionError
| IndexError
| KeyError (key : string)
| ValueError (msg : string)
| TypeError (msg : string)
| OSError (msg : string)
| SystemExit.

Inductive outcome (A : Type) : Type :=
| Return (a : A)
| Raise (e : exception).
Arguments Return {A} a.
Arguments Raise {A} e.

(** A method body: it transforms a state and either returns or raises; the
    state it leaves behind when it raises is the one mutated so far. *)
Definition M (St A : Type) : Type := St -> St * outcome A.

Definition ret {St A} (a : A) : M St A := fun s => (s, Return a).
Definition raise {St A} (e : exception) : M St A := fun s => (s, Raise e).
Definition bind {St A B} (m : M St A) (k : A -> M St B) : M St B :=
  fun s => match m s with
           | (s', Return a) => k a s'
           | (s', Raise e) => (s', Raise e)
           end.
Definition gets {St A} (f : St -> A) : M St A := fun s => (s, Return (f s)).
Definition modify {St} (f : St -> St) : M St unit := fun s => (f s, Return tt).

(** [assert c] *)
Definition assert {St} (c : bool) : M St unit :=
  if c then ret tt else raise AssertionError.

(** An object together with the process's standard output. *)
Record World (Obj : Type) : Type := mkWorld { self : Obj; stdout : list string }.
Arguments mkWorld {Obj} self stdout.
Arguments self {Obj} w.
Arguments stdout {Obj} w.

Definition print {Obj} (line : string) : M (World Obj) unit :=
  modify (fun w => mkWorld (self w) (stdout w ++ [line])).
Definition get_self {Obj A} (f : Obj -> A) : M (World Obj) A :=
  gets (fun w => f (self w)).
Definition set_self {Obj} (f : Obj -> Obj) : M (World Obj) unit :=
  modify (fun w => mkWorld (f (self w)) (stdout w)).

(** [l[start:stop]] on a sequence of length [n]: a negative index counts from
    the end, and both ends are clamped to the sequence. *)
Definition slice_index (n i : Z) : Z :=
  if i <? 0 then Z.max (i + n) 0 else Z.min i n.

Definition slice {A} (l : list A) (start stop : Z) : list A :=
  let n := Z.of_nat (length l) in
  let lo := slice_index n start in
  let hi := slice_index n stop in
  take (Z.to_nat (hi - lo)) (drop (Z.to_nat lo) l).

(** [a[perm]] for an array [perm] of indices that are not negative: the
    element at each index in turn; [IndexError] is [None]. *)
Definition take_indices {A} (l : list A) (perm : list nat) : option (list A) :=
  mapM (fun i => l !! i) perm.

(** [for x in l: body(x)] *)
Fixpoint for_each {St A} (l : list A) (body : A -> M St unit) : M St unit :=
  match l with
  | [] => ret tt
  | x :: l' => bind (body x) (fun _ => for_each l' body)
  end.

(** A call of a method of another object [o] made from a method whose own
    object is not touched: the callee's object as the call leaves it, and how
    the call ended ([try] sees both). *)
Definition on_object {Obj Obj' A} (o : Obj') (m : M (World Obj') A)
  : M (World Obj) (Obj' * outcome A) :=
  fun w => match m (mkWorld o (stdout w)) with
           | (w', r) => (mkWorld (self w) (stdout w'), Return (self w', r))
           end.



(** [s[n:]] for [0 <= n] *)
Fixpoint drop_chars (n : nat) (s : string) : string :=
  match n, s with
  | O, _ => s
  | S n', String _ s' => drop_chars n' s'
  | S _, EmptyString => EmptyString
  end.

(** [str(n)] for an int. *)
Definition str (n : Z) : string := pretty n.

End Py.
Export Py.

Declare Scope py_scope.
Delimit Scope py_scope with py.
Notation "x ← m ; k" := (bind m (fun x => k))
  (at level 20, m at level 100, k at level 200, only parsing) : py_scope.
Notation "' x ← m ; k" := (bind m (fun x => k))
  (at level 20, x pattern, m at level 100, k at level 200, only parsing) : py_scope.
Notation "m ;; k" := (bind m (fun _ => k))
  (at level 100, k at level 200, only parsing, right associativity) : py_scope.
Open Scope py_scope.

(** ** numpy arrays of float64 *)

Module Np.

Inductive ndarray : Type :=
| Scalar (e : float)
| Stack (xs : list ndarray).

(** An arithmetic expression over an array and Python scalars acts on every
    element. *)
Fixpoint broadcast (f : float -> float) (x : ndarray) : ndarray :=
  match x with
  | Scalar e => Scalar (f e)
  | Stack xs => Stack (map (broadcast f) xs)
  end.


(** The float64 holding the unsigned 8-bit value [n] (every such value is
    exactly representable). *)
Definition of_uint8 (n : Z) : float := PrimFloat.of_uint63 (Uint63.of_Z n).




(** The float64 nearest to a sequence length [n] ([0 <= n < 2^63]). *)
Definition of_len (n : Z) : float := PrimFloat.of_uint63 (Uint63.of_Z n).

(** [math.floor(f)]; [None] when it raises (NaN or an infinity). *)
Definition floor (f : float) : option Z :=
  match Prim2SF f with
  | S754_zero _ => Some 0
  | S754_finite s m e =>
      let sm := if s then Z.neg m else Z.pos m in
      Some (if 0 <=? e then sm * 2 ^ e else sm / 2 ^ (- e))
  | S754_infinity _ | S754_nan => None
  end.

End Np.
Export Np.

(** ** class Data *)

Module Data.

Record t : Type := mk {
  train_images : list ndarray;
  train_labels : list ndarray;
  valid_images : list ndarray;
  valid_labels : list ndarray;
  test_images : list ndarray;
  test_labels : list ndarray;
  _num_train_images : Z;
  _num_valid_images : Z;
  _num_test_images : Z;
  train_epochs_completed : Z;
  index_in_train_epoch : Z;
  index_in_valid_epoch : Z;
  index_in_test_epoch : Z
}.

Definition set_train_images (v : list ndarray) (d : t) : t :=
  mk v (train_labels d) (valid_images d) (valid_labels d) (test_images d) (test_labels d)
     (_num_train_images d) (_num_valid_images d) (_num_test_images d)
     (train_epochs_completed d) (index_in_train_epoch d) (index_in_valid_epoch d)
     (index_in_test_epoch d).
Definition set_train_labels (v : list ndarray) (d : t) : t :=
  mk (train_images d) v (valid_images d) (valid_labels d) (test_images d) (test_labels d)
     (_num_train_images d) (_num_valid_images d) (_num_test_images d)
     (train_epochs_completed d) (index_in_train_epoch d) (index_in_valid_epoch d)
     (index_in_test_epoch d).
Definition set_train_epochs_completed (v : Z) (d : t) : t :=
  mk (train_images d) (train_labels d) (valid_images d) (valid_labels d) (test_images d)
     (test_labels d) (_num_train_images d) (_num_valid_images d) (_num_test_images d)
     v (index_in_train_epoch d) (index_in_valid_epoch d) (index_in_test_epoch d).
Definition set_index_in_train_epoch (v : Z) (d : t) : t :=
  mk (train_images d) (train_labels d) (valid_images d) (valid_labels d) (test_images d)
     (test_labels d) (_num_train_images d) (_num_valid_images d) (_num_test_images d)
     (train_epochs_completed d) v (index_in_valid_epoch d) (index_in_test_epoch d).
Definition set_index_in_valid_epoch (v : Z) (d : t) : t :=
  mk (train_images d) (train_labels d) (valid_images d) (valid_labels d) (test_images d)
     (test_labels d) (_num_train_images d) (_num_valid_images d) (_num_test_images d)
     (train_epochs_completed d) (index_in_train_epoch d) v (index_in_test_epoch d).
Definition set_index_in_test_epoch (v : Z) (d : t) : t :=
  mk (train_images d) (train_labels d) (valid_images d) (valid_labels d) (test_images d)
     (test_labels d) (_num_train_images d) (_num_valid_images d) (_num_test_images d)
     (train_epochs_completed d) (index_in_train_epoch d) (index_in_valid_epoch d) v.

(** The properties [num_train_images], [num_valid_images], [num_test_images]. *)
Definition num_train_images (d : t) : Z := _num_train_images d.
Definition num_valid_images (d : t) : Z := _num_valid_images d.
Definition num_test_images (d : t) : Z := _num_test_images d.

(** [img_norm(x, max_val=255)]: [(x * (1 / max_val) - 0.5) * 2]. *)
Definition img_norm (x : ndarray) (max_val : float) : ndarray :=
  broadcast (fun e => (e * (1 / max_val) - 0.5) * 2)%float x.

Definition max_val_default : float := 255%float.

(** [next_train_batch(batch_size)]. [perm] is what [np.random.shuffle] leaves
    in [np.arange(num_train_images)] should this call reach it. *)
Definition next_train_batch (perm : list nat) (batch_size : Z)
  : M (World t) (list ndarray * ndarray) :=
  start ← get_self index_in_train_epoch;
  set_self (set_index_in_train_epoch (start + batch_size)) ;;
  idx ← get_self index_in_train_epoch;
  n ← get_self num_train_images;
  start ←
    (if idx >? n then
       done ← get_self train_epochs_completed;
       set_self (set_train_epochs_completed (done + 1)) ;;
       images ← get_self train_images;
       match take_indices images perm with
       | None => raise IndexError
       | Some images' =>
           set_self (set_train_images images') ;;
           labels ← get_self train_labels;
           match take_indices labels perm with
           | None => raise IndexError
           | Some labels' =>
               set_self (set_train_labels labels') ;;
               set_self (set_index_in_train_epoch batch_size) ;;
               n' ← get_self num_train_images;
               assert (batch_size <=? n') ;;
               ret 0
           end
       end
     else ret start);
  stop ← get_self index_in_train_epoch;
  labels ← get_self train_labels;
  images ← get_self train_images;
  ret (slice labels start stop, img_norm (Stack (slice images start stop)) max_val_default).

(** [next_valid_batch(batch_size)]: labels, normalised images, the new cursor
    and the batch size used. *)
Definition next_valid_batch (batch_size : Z)
  : M (World t) (list ndarray * ndarray * Z * Z) :=
  start ← get_self index_in_valid_epoch;
  n ← get_self num_valid_images;
  let batch_size := if start + batch_size >? n then 1 else batch_size in
  set_self (set_index_in_valid_epoch (start + batch_size)) ;;
  stop ← get_self index_in_valid_epoch;
  labels ← get_self valid_labels;
  images ← get_self valid_images;
  ret (slice labels start stop, img_norm (Stack (slice images start stop)) max_val_default,
       stop, batch_size).

(** [next_test_batch(batch_size)]; it also prints the cursor it starts from. *)
Definition next_test_batch (batch_size : Z)
  : M (World t) (list ndarray * ndarray * Z * Z) :=
  start ← get_self index_in_test_epoch;
  print (str start) ;;
  n ← get_self num_test_images;
  let batch_size := if start + batch_size >? n then 1 else batch_size in
  set_self (set_index_in_test_epoch (start + batch_size)) ;;
  stop ← get_self index_in_test_epoch;
  labels ← get_self test_labels;
  images ← get_self test_images;
  ret (slice labels start stop, img_norm (Stack (slice images start stop)) max_val_default,
       stop, batch_size).

(** [split_data(train_images, train_labels)]: train images, train labels,
    validation images, validation labels. It reads [num_valid_images]. *)
Definition split_data (self : t) (train_images train_labels : list ndarray)
  : list ndarray * list ndarray * list ndarray * list ndarray :=
  let valid_images := slice train_images 0 (num_valid_images self) in
  let valid_labels := slice train_labels 0 (num_valid_images self) in
  let train_images' :=
    slice train_images (num_valid_images self) (Z.of_nat (length train_images)) in
  let train_labels' :=
    slice train_labels (num_valid_images self) (Z.of_nat (length train_labels)) in
  (train_images', train_labels', valid_images, valid_labels).

(** [Data(flags, valid_percent)], given what [load_data] returned (train
    images, train labels, test images, test labels); [None] when
    [math.floor] raises. The attribute [flags] is not kept in the record. *)
Definition __init__ (loaded : list ndarray * list ndarray * list ndarray * list ndarray)
    (valid_percent : float) : option t :=
  let '(train_images, train_labels, test_images, test_labels) := loaded in
  let num_test := Z.of_nat (length test_labels) in
  match floor (of_len (Z.of_nat (length train_labels)) * (1 - valid_percent))%float with
  | None => None
  | Some num_train =>
      let num_valid := Z.of_nat (length train_labels) - num_train in
      let self := mk [] [] [] [] test_images test_labels num_train num_valid num_test 0 0 0 0 in
      let '(train_images', train_labels', valid_images, valid_labels) :=
        split_data self train_images train_labels in
      Some (mk train_images' train_labels' valid_images valid_labels test_images test_labels
              num_train num_valid num_test 0 0 0 0)
  end.

End Data.

(** ** Python dictionaries and configuration values *)

Module Dict.

(** A [dict] with string keys, in insertion order: [a.items()] walks it in
    that order, which decides which error a merge meets first. *)
Definition t (V : Type) : Type := list (string * V).

Fixpoint get {V} (k : string) (d : t V) : option V :=
  match d with
  | [] => None
  | (k', v) :: d' => if String.eqb k k' then Some v else get k d'
  end.

(** [k in d] *)
Definition mem {V} (k : string) (d : t V) : bool :=
  match get k d with Some _ => true | None => false end.

(** [d[k] = v]: an existing key keeps its place, a new one goes last. *)
Fixpoint set {V} (k : string) (v : V) (d : t V) : t V :=
  match d with
  | [] => [(k, v)]
  | (k', v') :: d' => if String.eqb k k' then (k, v) :: d' else (k', v') :: set k v d'
  end.

Definition keys {V} (d : t V) : list string := map fst d.

End Dict.

Module Value.

(** [dict] or [easydict.EasyDict] *)
Inductive mapping_class : Type := PlainDict | EasyDict.

Inductive t : Type :=
| VNone
| VBool (b : bool)
| VInt (z : Z)
| VFloat (f : float)
| VStr (s : string)
| VList (l : list t)
| VArray (dtype : string) (l : list t)
| VMap (cls : mapping_class) (items : list (string * t)).

Inductive pytype : Type :=
| NoneType | PyBool | PyInt | PyFloat | PyStr | PyList | NdArray | PyDict | EDict.

(** [type(v)] *)
Definition type (v : t) : pytype :=
  match v with
  | VNone => NoneType
  | VBool _ => PyBool
  | VInt _ => PyInt
  | VFloat _ => PyFloat
  | VStr _ => PyStr
  | VList _ => PyList
  | VArray _ _ => NdArray
  | VMap PlainDict _ => PyDict
  | VMap EasyDict _ => EDict
  end.

(** [t1 is t2] on types *)
Definition type_is (t1 t2 : pytype) : bool :=
  match t1, t2 with
  | NoneType, NoneType | PyBool, PyBool | PyInt, PyInt | PyFloat, PyFloat
  | PyStr, PyStr | PyList, PyList | NdArray, NdArray | PyDict, PyDict
  | EDict, EDict => true
  | _, _ => false
  end.

(** [str(type(v))] *)
Definition type_repr (ty : pytype) : string :=
  match ty with
  | NoneType => "<class 'NoneType'>"
  | PyBool => "<class 'bool'>"
  | PyInt => "<class 'int'>"
  | PyFloat => "<class 'float'>"
  | PyStr => "<class 'str'>"
  | PyList => "<class 'list'>"
  | NdArray => "<class 'numpy.ndarray'>"
  | PyDict => "<class 'dict'>"
  | EDict => "<class 'easydict.EasyDict'>"
  end.

(** [np.array(v, dtype=dtype)]: the array built from [v]; numpy's conversion
    of each element to [dtype] is not unfolded. *)
Definition np_array (v : t) (dtype : string) : t :=
  match v with
  | VList l => VArray dtype l
  | VArray _ l => VArray dtype l
  | _ => VArray dtype [v]
  end.

End Value.
Export Value.

Abbreviation dict := (Dict.t Value.t).

(** ** class Model *)

Module Model.

(** A [tf.Variable]; the modelled code reads only [var.op.name]. *)
Record variable : Type := mk_variable { op_name : string }.

(** The calls into TensorFlow that [_restore_slim] makes, in order. *)
Inductive tf_call : Type :=
| Saver_init (var_list : Dict.t variable)
| Saver_restore (var_list : Dict.t variable) (save_path : Value.t).

Record t : Type := mk {
  flags : dict;
  step : Z;
  tf_calls : list tf_call
}.


Section Environment.

(** What [edict(yaml.load(f))] gives for the file opened under a name; [None]
    when [open], [yaml.load] or [edict] raises (none of them a [KeyError]). *)
Variable yaml_files : Value.t -> option dict.

(** What [NewCheckpointReader(filename).get_variable_to_shape_map()] gives:
    the map from variable name to shape, or the text of the exception. *)
Variable checkpoint_files : Value.t -> string + Dict.t (list Z).

(** The text that ['%s' % v] puts in place of [%s]. *)
Variable format_s : Value.t -> string.

(** [_merge_a_into_b(a, b)]. The state is [b], which the loop mutates in
    place; the result says whether [b] (true) or [None] (false) is returned. *)
Fixpoint _merge_a_into_b (a : Value.t) : M (World dict) bool :=
  match a with
  | VMap EasyDict items =>
      (fix loop (items : list (string * Value.t)) : M (World dict) bool :=
         match items with
         | [] => ret true
         | (k, v0) :: rest =>
             b ← get_self id;
             match Dict.get k b with
             | None => raise (KeyError (k +:+ " is not a valid config key"))
             | Some old =>
                 v ← (if negb (type_is (type old) (type v0)) then
                        match old with
                        | VArray dtype _ => ret (np_array v0 dtype)
                        | _ => raise (ValueError
                                        ("Type mismatch (" +:+ type_repr (type old) +:+ " vs. "
                                         +:+ type_repr (type v0) +:+ ") for config key: " +:+ k))
                        end
                      else ret v0);
                 (if type_is (type v) EDict then
                    match old with
                    | VMap cls sub =>
                        (* [b[k]] is the object the inner call mutates *)
                        r ← (fun w =>
                               match _merge_a_into_b v0 (mkWorld sub (stdout w)) with
                               | (w', r) =>
                                   (mkWorld (Dict.set k (VMap cls (self w')) (self w)) (stdout w'),
                                    Return r)
                               end);
                        match r with
                        | Return _ => ret tt
                        | Raise e => print ("Error under config key: " +:+ k) ;; raise e
                        end
                    | _ => ret tt (* not reached: [old] has the type of [v] *)
                    end
                  else set_self (Dict.set k v)) ;;
                 loop rest
             end
         end) items
  | _ => ret false
  end.

(** [_merge_a_into_b_simple(a, b)]; [b] is [None] when the earlier merge
    returned [None]. *)
Definition _merge_a_into_b_simple {St} (a : dict) (b : option dict) : M St (option dict) :=
  match b with
  | Some b => ret (Some (fold_left (fun b kv => Dict.set (fst kv) (snd kv) b) a b))
  | None =>
      match a with
      | [] => ret None
      | _ :: _ => raise (TypeError "'NoneType' object does not support item assignment")
      end
  end.

(** [cfg_from_file(yaml_filename, config_dict)], run on [config_dict]. *)
Definition cfg_from_file (yaml_filename : Value.t) : M (World dict) bool :=
  match yaml_files yaml_filename with
  | None => raise (OSError "yaml file")
  | Some yaml_cfg => _merge_a_into_b (VMap EasyDict yaml_cfg)
  end.

(** [load_config_yaml(flags, config_dict)]. In the second and third return
    the value is the object [config_dict] itself, as mutated by then. *)
Definition load_config_yaml (flags : dict) (config_dict : option dict)
  : M (World unit) (option dict) :=
  match config_dict with
  | None =>
      print "Config File not specified. Using only input flags." ;;
      ret (Some flags)
  | Some config_dict =>
      tried ← on_object config_dict
                (match Dict.get "YAML_FILE" flags with
                 | None => raise (KeyError "YAML_FILE")
                 | Some yaml_file => cfg_from_file yaml_file
                 end);
      match tried with
      | (config_dict, Raise (KeyError _)) =>
          print "Yaml File not specified. Using only input flags and config file." ;;
          ret (Some config_dict)
      | (_, Raise e) => raise e
      | (config_dict, Return returned_b) =>
          let config_yaml_dict := if returned_b : bool then Some config_dict else None in
          print "Using input flags, config file, and yaml file." ;;
          _merge_a_into_b_simple flags config_yaml_dict
      end
  end.

Definition crucial_keys : list string := ["MODEL_DIRECTORY"; "SAVE_DIRECTORY"].
Definition optional_keys : list string :=
  ["RESTORE_SLIM_FILE"; "RESTORE_META"; "RESTORE_SLIM"; "SEED"; "GPU"].

(** [check_dict_keys(config_yaml_flags_dict)], run on that dictionary, which
    is also what it returns. *)
Definition check_dict_keys : M (World dict) unit :=
  for_each crucial_keys (fun key =>
    d ← get_self id;
    if negb (Dict.mem key d) then
      print ("You must define " +:+ key +:+ ". Now exiting...") ;;
      raise SystemExit
    else ret tt) ;;
  for_each optional_keys (fun key =>
    d ← get_self id;
    if negb (Dict.mem key d) then
      set_self (Dict.set key VNone) ;;
      print (key +:+ " in flags, yaml or config dictionary was not found.")
    else ret tt) ;;
  d ← get_self id;
  (if negb (Dict.mem "RUN_NUM" d) then set_self (Dict.set "RUN_NUM" (VInt 0)) else ret tt) ;;
  d ← get_self id;
  (if negb (Dict.mem "NUM_EPOCHS" d) then set_self (Dict.set "NUM_EPOCHS" (VInt 1)) else ret tt).

(** [name_in_checkpoint(var)]; falling off the end returns [None]. *)
Definition name_in_checkpoint (var : variable) : option string :=
  if String.prefix "model/" (op_name var)
  then Some (drop_chars (String.length "model/") (op_name var))
  else None.



(** [{name_in_checkpoint(v): v for v in variables
      if name_in_checkpoint(v) in variables_to_restore}], built onto [acc].
    [None in d] is false for a dictionary [d]; [x in None] is a [TypeError]. *)
Fixpoint select_variables {St} (variables_to_restore : option (Dict.t (list Z)))
    (variables : list variable) (acc : Dict.t variable) : M St (Dict.t variable) :=
  match variables with
  | [] => ret acc
  | v :: rest =>
      match variables_to_restore with
      | None => raise (TypeError "argument of type 'NoneType' is not iterable")
      | Some in_file =>
          match name_in_checkpoint v with
          | Some name =>
              if Dict.mem name in_file
              then select_variables variables_to_restore rest (Dict.set name v acc)
              else select_variables variables_to_restore rest acc
          | None => select_variables variables_to_restore rest acc
          end
      end
  end.


End Environment.

End Model.

(** ** class Layers *)

Module Layers.

(** A Python or numpy number ([np.ones] and [np.zeros] hold floats). *)
Inductive number : Type :=
| Int (z : Z)
| Float (f : float).


(** [tf.nn.relu] or another callable, by name. *)
Inductive activation : Type :=
| relu
| activation_named (name : string).

Inductive shortcut : Type := Identity | Projection.

(** The framework operation a layer method appends, with the arguments the
    method settles on. The tensors themselves stay symbolic. *)
Inductive operation : Type :=
| Conv2d (filter_size output_channels : Z) (stride : number) (padding : string) (bn : bool)
    (b_value s_value : option number) (activation_fn : option activation) (trainable : bool)
| Deconv2d (filter_size output_channels : Z) (stride : number) (padding : string) (bn : bool)
    (b_value s_value : option number) (activation_fn : option activation) (trainable : bool)
| Flatten (keep_prob : number)
| Fc (output_nodes : Z) (keep_prob : number) (bn : bool) (b_value s_value : option number)
    (activation_fn : option activation) (trainable : bool)
| MaxPool (k1 k2 s1 s2 : Z) (padding : string)
| AvgPool (k1 k2 s1 s2 : Z) (padding : string)
| ResLayer (additive_output : shortcut) (output_channels filter_size : Z) (stride : number)
    (activation_fn : activation) (bottle trainable : bool)
| NoisyAnd (num_classes : Z) (trainable : bool).

Inductive tensor : Type :=
| Placeholder (name : string)
| Layer (scope : string) (op : operation) (x : tensor).

Record t : Type := mk {
  input : tensor;
  count : gmap string Z
}.

Definition set_input (x : tensor) (l : t) : t := mk x (count l).
Definition set_count (c : gmap string Z) (l : t) : t := mk (input l) c.

(** [Layers(x)] *)
Definition __init__ (x : tensor) : t :=
  mk x (list_to_map [("conv", 0); ("deconv", 0); ("fc", 0); ("flat", 0);
                     ("mp", 0); ("up", 0); ("ap", 0); ("rn", 0)]).

(** The scopes opened so far, oldest first. *)
Fixpoint scopes (x : tensor) : list string :=
  match x with
  | Placeholder _ => []
  | Layer scope _ x' => scopes x' ++ [scope]
  end.

(** The operations appended so far, oldest first. *)
Fixpoint operations (x : tensor) : list operation :=
  match x with
  | Placeholder _ => []
  | Layer _ op x' => operations x' ++ [op]
  end.

(** [l[i]] *)
Definition index {St A} (l : list A) (i : nat) : M St A :=
  match l !! i with
  | Some x => ret x
  | None => raise IndexError
  end.

Section Framework.

(** [x.get_shape()], the framework's static shape inference. *)
Variable get_shape : tensor -> list Z.
(** [str] of a shape. *)
Variable str_shape : list Z -> string.

(** [self.count[kind]] *)
Definition counter (kind : string) : M (World t) Z :=
  c ← get_self count;
  match c !! kind with
  | Some n => ret n
  | None => raise (KeyError kind)
  end.

(** [self.count[kind] += 1] *)
Definition increment (kind : string) : M (World t) unit :=
  n ← counter kind;
  set_self (fun l => set_count (<[kind := n + 1]> (count l)) l).

(** [self.input.get_shape()[i]] *)
Definition input_dim (i : nat) : M (World t) Z :=
  x ← get_self input;
  index (get_shape x) i.

(** The end of every layer method: the new tensor becomes [self.input] and
    its shape is printed under the scope name. *)
Definition append (scope : string) (op : operation) : M (World t) unit :=
  set_self (fun l => set_input (Layer scope op (input l)) l) ;;
  x ← get_self input;
  print (scope +:+ " output: " +:+ str_shape (get_shape x)).

Definition conv2d (filter_size output_channels : Z) (stride : number) (padding : string)
    (bn : bool) (activation_fn : option activation) (b_value s_value : option number)
    (trainable : bool) : M (World t) unit :=
  increment "conv" ;;
  n ← counter "conv";
  let scope := "conv_" +:+ str n in
  input_channels ← input_dim 3;
  args ← (if filter_size =? 0 then
            width ← input_dim 2;
            ret (width, "VALID")
          else ret (filter_size, padding));
  append scope (Conv2d (fst args) output_channels stride (snd args) bn b_value s_value
                  activation_fn trainable).

Definition deconv2d (filter_size output_channels : Z) (stride : number) (padding : string)
    (activation_fn : option activation) (b_value s_value : option number) (bn : bool)
    (trainable : bool) : M (World t) unit :=
  increment "deconv" ;;
  n ← counter "deconv";
  let scope := "deconv_" +:+ str n in
  input_channels ← input_dim 3;
  append scope (Deconv2d filter_size output_channels stride padding bn b_value s_value
                  activation_fn trainable).



(** The window and strides both pooling methods settle on. *)
Definition pool_args (k : Z) (s : option Z) (globe : bool) : M (World t) (Z * Z * Z * Z * string) :=
  if globe then
    k1 ← input_dim 1;
    k2 ← input_dim 2;
    ret (k1, k2, 1, 1, "VALID")
  else
    match s with
    | None => ret (k, k, k, k, "SAME")
    | Some s => ret (k, k, s, s, "SAME")
    end.

Definition maxpool (k : Z) (s : option Z) (globe : bool) : M (World t) unit :=
  increment "mp" ;;
  n ← counter "mp";
  let scope := "maxpool_" +:+ str n in
  '(k1, k2, s1, s2, padding) ← pool_args k s globe;
  append scope (MaxPool k1 k2 s1 s2 padding).

Definition avgpool (k : Z) (s : option Z) (globe : bool) : M (World t) unit :=
  increment "ap" ;;
  n ← counter "mp";
  let scope := "avgpool_" +:+ str n in
  '(k1, k2, s1, s2, padding) ← pool_args k s globe;
  append scope (AvgPool k1 k2 s1 s2 padding).


Definition noisy_and (num_classes : Z) (trainable : bool) : M (World t) unit :=
  depth ← input_dim 3;
  assert (depth =? num_classes) ;;
  let scope := "noisyAND" in
  append scope (NoisyAnd num_classes trainable).

(** [get_output()] *)
Definition get_output : M (World t) tensor := get_self input.

(** [convnet(filter_size, output_channels, stride=None, padding=None,
    activation_fn=None, b_value=None, s_value=None, bn=None, trainable=True)] *)
Definition convnet (filter_size output_channels : list Z) (stride : option (list number))
    (padding : option (list string)) (activation_fn : option (list (option activation)))
    (b_value s_value : option (list (option number))) (bn : option (list bool))
    (trainable : bool) : M (World t) unit :=
  let depth := length filter_size in
  let stride := default (replicate depth (Float 1)) stride in
  let padding := default (replicate depth "SAME") padding in
  let activation_fn := default (replicate depth (Some relu)) activation_fn in
  let b_value := default (replicate depth (Some (Float 0))) b_value in
  let s_value := default (replicate depth (Some (Float 1))) s_value in
  let bn := default (replicate depth true) bn in
  assert (length output_channels =? depth)%nat ;;
  assert (length stride =? depth)%nat ;;
  assert (length padding =? depth)%nat ;;
  assert (length activation_fn =? depth)%nat ;;
  assert (length b_value =? depth)%nat ;;
  assert (length s_value =? depth)%nat ;;
  assert (length bn =? depth)%nat ;;
  for_each (seq 0 depth) (fun l =>
    fs ← index filter_size l;
    oc ← index output_channels l;
    st ← index stride l;
    pd ← index padding l;
    act ← index activation_fn l;
    b ← index b_value l;
    s ← index s_value l;
    bn_l ← index bn l;
    conv2d fs oc st pd bn_l act b s trainable).

(** [deconvnet(filter_sizes, output_channels, strides=None, padding=None,
    activation_fn=None, b_value=None, s_value=None, bn=None, trainable=True)] *)
Definition deconvnet (filter_sizes output_channels : list Z) (strides : option (list number))
    (padding : option (list string)) (activation_fn : option (list (option activation)))
    (b_value s_value : option (list (option number))) (bn : option (list bool))
    (trainable : bool) : M (World t) unit :=
  let depth := length filter_sizes in
  let strides := default (replicate depth (Float 1)) strides in
  let padding := default (replicate depth "SAME") padding in
  let activation_fn := default (replicate depth (Some relu)) activation_fn in
  let b_value := default (replicate depth (Some (Float 0))) b_value in
  let s_value := default (replicate depth (Some (Float 1))) s_value in
  let bn := default (replicate depth true) bn in
  assert (length output_channels =? depth)%nat ;;
  assert (length strides =? depth)%nat ;;
  assert (length padding =? depth)%nat ;;
  assert (length activation_fn =? depth)%nat ;;
  assert (length b_value =? depth)%nat ;;
  assert (length s_value =? depth)%nat ;;
  assert (length bn =? depth)%nat ;;
  for_each (seq 0 depth) (fun l =>
    fs ← index filter_sizes l;
    oc ← index output_channels l;
    st ← index strides l;
    pd ← index padding l;
    act ← index activation_fn l;
    b ← index b_value l;
    s ← index s_value l;
    bn_l ← index bn l;
    deconv2d fs oc st pd act b s bn_l trainable).

End Framework.

End Layers.

(** ** Runs of several calls *)

Module Runs.

(** One [next_train_batch(batch_size)] call per entry of [perms], each entry
    being the shuffle that call would draw; the batches in call order. *)
Fixpoint train_calls (perms : list (list nat)) (batch_size : Z)
  : M (World Data.t) (list (list ndarray * ndarray)) :=
  match perms with
  | [] => ret []
  | perm :: perms' =>
      b ← Data.next_train_batch perm batch_size;
      bs ← train_calls perms' batch_size;
      ret (b :: bs)
  end.

(** The batch that [next_train_batch] cuts out of [d] at [start]. *)
Definition train_batch_at (d : Data.t) (start batch_size : Z) : list ndarray * ndarray :=
  (slice (Data.train_labels d) start (start + batch_size),
   Data.img_norm (Stack (slice (Data.train_images d) start (start + batch_size)))
     Data.max_val_default).

(** [d] holds a train partition of [size] examples. *)
Definition train_partition (size : Z) (d : Data.t) : Prop :=
  Data.num_train_images d = size /\
  Z.of_nat (length (Data.train_labels d)) = size /\
  Z.of_nat (length (Data.train_images d)) = size.

(** [perm] is a shuffle of [np.arange(size)]. *)
Definition shuffle_of (size : Z) (perm : list nat) : Prop :=
  Permutation perm (seq 0 (Z.to_nat size)).

(** The state a training call with [batch_size] leaves when it overruns the
    partition of [d] and the shuffle gives [images'] and [labels']. *)
Definition rolled_over (d : Data.t) (batch_size : Z) (images' labels' : list ndarray)
  : Data.t :=
  Data.mk images' labels' (Data.valid_images d) (Data.valid_labels d) (Data.test_images d)
    (Data.test_labels d) (Data._num_train_images d) (Data._num_valid_images d)
    (Data._num_test_images d) (Data.train_epochs_completed d + 1) batch_size
    (Data.index_in_valid_epoch d) (Data.index_in_test_epoch d).

(** [k] calls of [next_valid_batch(n)], the returned tuples in call order. *)
Fixpoint valid_calls (k : nat) (n : Z)
  : M (World Data.t) (list (list ndarray * ndarray * Z * Z)) :=
  match k with
  | O => ret []
  | S k' =>
      b ← Data.next_valid_batch n;
      bs ← valid_calls k' n;
      ret (b :: bs)
  end.

(** [k] calls of [next_test_batch(n)]. *)
Fixpoint test_calls (k : nat) (n : Z)
  : M (World Data.t) (list (list ndarray * ndarray * Z * Z)) :=
  match k with
  | O => ret []
  | S k' =>
      b ← Data.next_test_batch n;
      bs ← test_calls k' n;
      ret (b :: bs)
  end.

(** The labels of a returned tuple. *)
Definition batch_labels (b : list ndarray * ndarray * Z * Z) : list ndarray :=
  fst (fst (fst b)).

(** The object after a series of [next_train_batch] calls, each given as the
    shuffle it would draw and its batch size; a call that raises leaves the
    object as it was when it raised, and the series goes on. *)
Definition after_train_calls (calls : list (list nat * Z)) (w : World Data.t)
  : World Data.t :=
  fold_left (fun w call => fst (Data.next_train_batch (fst call) (snd call) w)) calls w.

(** One round of the loop of [_merge_a_into_b], for the item [(k, v0)]. *)
Definition merge_entry (k : string) (v0 : Value.t) : M (World dict) unit :=
  b ← get_self id;
  match Dict.get k b with
  | None => raise (KeyError (k +:+ " is not a valid config key"))
  | Some old =>
      v ← (if negb (type_is (type old) (type v0)) then
             match old with
             | VArray dtype _ => ret (np_array v0 dtype)
             | _ => raise (ValueError
                             ("Type mismatch (" +:+ type_repr (type old) +:+ " vs. "
                              +:+ type_repr (type v0) +:+ ") for config key: " +:+ k))
             end
           else ret v0);
      if type_is (type v) EDict then
        match old with
        | VMap cls sub =>
            r ← (fun w =>
                   match Model._merge_a_into_b v0 (mkWorld sub (stdout w)) with
                   | (w', r) =>
                       (mkWorld (Dict.set k (VMap cls (self w')) (self w)) (stdout w'),
                        Return r)
                   end);
            match r with
            | Return _ => ret tt
            | Raise e => print ("Error under config key: " +:+ k) ;; raise e
            end
        | _ => ret tt
        end
      else set_self (Dict.set k v)
  end.

(** The dictionary [b'] has the keys of [b], in the same order, and under
    each key a value of the type [b] has there. *)
Definition same_schema (b b' : dict) : Prop :=
  Dict.keys b' = Dict.keys b /\
  forall k, option_map Value.type (Dict.get k b') = option_map Value.type (Dict.get k b).

(** An item of a YAML mapping that [_merge_a_into_b] stores as it is: its
    key is in [b] with a value of the item's type, and the item is not a
    nested mapping. *)
Definition plain_item (b : dict) (item : string * Value.t) : Prop :=
  exists old, Dict.get (fst item) b = Some old /\
              Value.type old = Value.type (snd item) /\
              Value.type (snd item) <> EDict.








(** [m] leaves the builder and the output as they are. *)
Definition reads {St A} (m : M St A) : Prop := forall s, fst (m s) = s.

End Runs.
Import Runs.

(** ** The specification's formula *)

Module Spec.




(** The check that the code's expression gives the pixel value [m] a smaller
    float64 than the pixel value [n]. *)
Definition pixel_order_check (m n : Z) : bool :=
  PrimFloat.ltb ((of_uint8 m * (1 / Data.max_val_default) - 0.5) * 2)%float
                ((of_uint8 n * (1 / Data.max_val_default) - 0.5) * 2)%float.


(** The line printed for each of [keys] that is absent from [d], in order. *)
Definition not_found_lines (keys : list string) (d : dict) : list string :=
  map (fun key => key +:+ " in flags, yaml or config dictionary was not found.")
    (List.filter (fun key => negb (Dict.mem key d)) keys).

(** [d] with [key] set to [v] unless it has a value already. *)
Definition set_default (key : string) (v : Value.t) (d : dict) : dict :=
  if Dict.mem key d then d else Dict.set key v d.

(** [d] with each absent key of [keys] set to the unset marker. *)
Definition fill_unset (keys : list string) (d : dict) : dict :=
  fold_left (fun d key => set_default key VNone d) keys d.

(** A per-layer list that was supplied has [depth] entries. *)
Definition supplied_ok {A} (depth : nat) (l : option (list A)) : Prop :=
  match l with
  | Some l => length l = depth
  | None => True
  end.

(** Every per-layer list that [convnet] or [deconvnet] was given has as many
    entries as there are filter sizes. *)
Definition lengths_agree (filter_size output_channels : list Z)
    (stride : option (list Layers.number)) (padding : option (list string))
    (activation_fn : option (list (option Layers.activation)))
    (b_value s_value : option (list (option Layers.number))) (bn : option (list bool))
  : Prop :=
  let depth := length filter_size in
  length output_channels = depth /\ supplied_ok depth stride /\ supplied_ok depth padding /\
  supplied_ok depth activation_fn /\ supplied_ok depth b_value /\
  supplied_ok depth s_value /\ supplied_ok depth bn.

(** The arguments of the single-layer calls, one tuple per layer in list
    order, with the defaults of [conv2d] and [deconv2d] where a list was not
    supplied. *)
Definition layer_calls (filter_size output_channels : list Z)
    (stride : option (list Layers.number)) (padding : option (list string))
    (activation_fn : option (list (option Layers.activation)))
    (b_value s_value : option (list (option Layers.number))) (bn : option (list bool))
  : list (Z * (Z * (Layers.number * (string * (option Layers.activation *
            (option Layers.number * (option Layers.number * bool))))))) :=
  let depth := length filter_size in
  zip filter_size
    (zip output_channels
       (zip (default (replicate depth (Layers.Float 1)) stride)
          (zip (default (replicate depth "SAME") padding)
             (zip (default (replicate depth (Some Layers.relu)) activation_fn)
                (zip (default (replicate depth (Some (Layers.Float 0))) b_value)
                   (zip (default (replicate depth (Some (Layers.Float 1))) s_value)
                      (default (replicate depth true) bn))))))).

End Spec.
Import Spec.

(** ** Small concrete objects *)

Module Examples.

(** Three labelled one-pixel images. *)
Definition labels3 : list ndarray := [Scalar 10; Scalar 11; Scalar 12].
Definition images3 : list ndarray :=
  [Stack [Scalar 0]; Stack [Scalar 255]; Stack [Scalar 51]].

(** A [Data] object whose three partitions all hold these three examples,
    with the given cursors. *)
Definition data3 (i_train i_valid i_test : Z) : World Data.t :=
  mkWorld (Data.mk images3 labels3 images3 labels3 images3 labels3 3 3 3 0
             i_train i_valid i_test) [].

(** Two shuffles of [arange(3)]: one leaves the order as it is, one rotates. *)
Definition same_order : list nat := [0; 1; 2]%nat.
Definition rotated : list nat := [2; 0; 1]%nat.

(** A file system with one YAML file, [path], whose content loads as [cfg]. *)
Definition one_yaml_file (path : string) (cfg : dict) (name : Value.t) : option dict :=
  match name with
  | VStr p => if String.eqb p path then Some cfg else None
  | _ => None
  end.




(** A framework in which every tensor has the shape of a batch of 28x28
    RGB images, and a builder over a fresh placeholder. *)
Definition image_shape (x : Layers.tensor) : list Z := [64; 28; 28; 3].
Definition show_shape (shape : list Z) : string := "(64, 28, 28, 3)".
Definition fresh_builder : World Layers.t :=
  mkWorld (Layers.__init__ (Layers.Placeholder "x")) [].

End Examples.

(** * Proofs *)

(** ** Slices *)

Section Slices.

Context {A : Type}.
Implicit Types l : list A.

Lemma slice_inside l (i j : Z) :
  0 <= i -> i <= j -> j <= Z.of_nat (length l) ->
  slice l i j = take (Z.to_nat (j - i)) (drop (Z.to_nat i) l).
Proof.
  intros Hi Hij Hj. unfold slice, slice_index.
  destruct (Z.ltb_spec i 0); [lia|]. destruct (Z.ltb_spec j 0); [lia|].
  rewrite !Z.min_l by lia. reflexivity.
Qed.

Lemma slice_length l (i j : Z) :
  0 <= i -> i <= j -> j <= Z.of_nat (length l) ->
  Z.of_nat (length (slice l i j)) = j - i.
Proof.
  intros Hi Hij Hj. rewrite slice_inside by lia.
  rewrite length_take, length_drop. lia.
Qed.

(** Consecutive slices of one width, laid end to end, are a prefix. *)
Lemma slices_concat l (b : Z) (k : nat) :
  0 < b -> Z.of_nat k * b <= Z.of_nat (length l) ->
  concat (map (fun j => slice l (Z.of_nat j * b) (Z.of_nat j * b + b)) (seq 0 k))
  = take (Z.to_nat (Z.of_nat k * b)) l.
Proof.
  intros Hb. induction k as [|k IH]; intros Hk.
  - reflexivity.
  - rewrite seq_S, map_app, concat_app, IH by lia. cbn [map concat Nat.add].
    rewrite app_nil_r, slice_inside by lia.
    replace (Z.of_nat k * b + b - Z.of_nat k * b) with b by lia.
    replace (Z.to_nat (Z.of_nat (S k) * b))
      with (Z.to_nat (Z.of_nat k * b) + Z.to_nat b)%nat by lia.
    apply take_take_drop.
Qed.

End Slices.

(** ** One call of a batch method *)

(** Splits a world into the fields of its [Data] object and its output. *)
Ltac open_world w :=
  let ti := fresh "images" in let tl := fresh "labels" in
  let n := fresh "n_train" in let nv := fresh "n_valid" in let nt := fresh "n_test" in
  let ep := fresh "epochs" in let i := fresh "i_train" in
  let iv := fresh "i_valid" in let it := fresh "i_test" in
  destruct w as [[ti tl ? ? ? ? n nv nt ep i iv it] ?];
  unfold rolled_over, train_batch_at, Data.num_train_images, Data.num_valid_images,
    Data.num_test_images in *;
  cbn [self stdout Data.train_images Data.train_labels Data.valid_images
       Data.valid_labels Data.test_images Data.test_labels Data._num_train_images
       Data._num_valid_images Data._num_test_images Data.train_epochs_completed
       Data.index_in_train_epoch Data.index_in_valid_epoch Data.index_in_test_epoch] in *.

(** Runs the monad's plumbing, leaving the comparisons and lookups of the
    method body in place. *)
Ltac run_method :=
  unfold print, get_self, set_self, assert;
  unfold bind, ret, raise, gets, modify,
    Data.set_train_images, Data.set_train_labels, Data.set_train_epochs_completed,
    Data.set_index_in_train_epoch, Data.set_index_in_valid_epoch,
    Data.set_index_in_test_epoch, Data.num_train_images;
  cbv beta iota zeta delta
      [self stdout fst snd Data.train_images Data.train_labels Data.valid_images
       Data.valid_labels Data.test_images Data.test_labels Data._num_train_images
       Data._num_valid_images Data._num_test_images Data.train_epochs_completed
       Data.index_in_train_epoch Data.index_in_valid_epoch Data.index_in_test_epoch].

Section OneCall.

Variable w : World Data.t.
Variable batch_size : Z.

Lemma next_valid_batch_eq :
  let start := Data.index_in_valid_epoch (self w) in
  let used := if start + batch_size >? Data.num_valid_images (self w) then 1 else batch_size in
  Data.next_valid_batch batch_size w =
    (mkWorld (Data.set_index_in_valid_epoch (start + used) (self w)) (stdout w),
     Return (slice (Data.valid_labels (self w)) start (start + used),
             Data.img_norm (Stack (slice (Data.valid_images (self w)) start (start + used)))
               Data.max_val_default,
             start + used, used)).
Proof. destruct w as [d out]. reflexivity. Qed.

Lemma next_test_batch_eq :
  let start := Data.index_in_test_epoch (self w) in
  let used := if start + batch_size >? Data.num_test_images (self w) then 1 else batch_size in
  Data.next_test_batch batch_size w =
    (mkWorld (Data.set_index_in_test_epoch (start + used) (self w)) (stdout w ++ [str start]),
     Return (slice (Data.test_labels (self w)) start (start + used),
             Data.img_norm (Stack (slice (Data.test_images (self w)) start (start + used)))
               Data.max_val_default,
             start + used, used)).
Proof. destruct w as [d out]. reflexivity. Qed.

(** A training call that stays inside the partition only moves the cursor. *)
Lemma next_train_batch_within (perm : list nat) :
  Data.index_in_train_epoch (self w) + batch_size <= Data.num_train_images (self w) ->
  Data.next_train_batch perm batch_size w =
    (mkWorld
       (Data.set_index_in_train_epoch (Data.index_in_train_epoch (self w) + batch_size) (self w))
       (stdout w),
     Return (train_batch_at (self w) (Data.index_in_train_epoch (self w)) batch_size)).
Proof.
  open_world w. intros H.
  unfold Data.next_train_batch. run_method.
  destruct (Z.gtb_spec (i_train + batch_size) n_train); [lia|]. reflexivity.
Qed.

Lemma next_train_batch_rollover (perm : list nat) (images' labels' : list ndarray) :
  Data.index_in_train_epoch (self w) + batch_size > Data.num_train_images (self w) ->
  take_indices (Data.train_images (self w)) perm = Some images' ->
  take_indices (Data.train_labels (self w)) perm = Some labels' ->
  Data.next_train_batch perm batch_size w =
    (mkWorld (rolled_over (self w) batch_size images' labels') (stdout w),
     if batch_size <=? Data.num_train_images (self w)
     then Return (train_batch_at (rolled_over (self w) batch_size images' labels') 0 batch_size)
     else Raise AssertionError).
Proof.
  open_world w. intros H Hi Hl.
  unfold Data.next_train_batch. run_method.
  destruct (Z.gtb_spec (i_train + batch_size) n_train); [|lia].
  rewrite Hi. run_method. rewrite Hl. run_method.
  destruct (batch_size <=? n_train); reflexivity.
Qed.

End OneCall.
(** ** C2: validation and test batches that would overrun *)

(** C2. If cursor + n exceeds the partition size, [next_valid_batch(n)] (and
    likewise [next_test_batch(n)]) returns the batch size 1 and moves its
    cursor by 1, not by n; in every case the third and fourth components of
    the returned tuple are the new cursor and the batch size that was used. *)
Theorem valid_test_batch_overrun (w : World Data.t) (n : Z) :
  (Data.index_in_valid_epoch (self w) + n > Data.num_valid_images (self w) ->
   exists w' labels images,
     Data.next_valid_batch n w =
       (w', Return (labels, images, Data.index_in_valid_epoch (self w) + 1, 1)) /\
     Data.index_in_valid_epoch (self w') = Data.index_in_valid_epoch (self w) + 1) /\
  (Data.index_in_test_epoch (self w) + n > Data.num_test_images (self w) ->
   exists w' labels images,
     Data.next_test_batch n w =
       (w', Return (labels, images, Data.index_in_test_epoch (self w) + 1, 1)) /\
     Data.index_in_test_epoch (self w') = Data.index_in_test_epoch (self w) + 1) /\
  (exists w' labels images stop used,
     Data.next_valid_batch n w = (w', Return (labels, images, stop, used)) /\
     stop = Data.index_in_valid_epoch (self w') /\
     stop = Data.index_in_valid_epoch (self w) + used /\
     labels = slice (Data.valid_labels (self w)) (Data.index_in_valid_epoch (self w)) stop) /\
  (exists w' labels images stop used,
     Data.next_test_batch n w = (w', Return (labels, images, stop, used)) /\
     stop = Data.index_in_test_epoch (self w') /\
     stop = Data.index_in_test_epoch (self w) + used /\
     labels = slice (Data.test_labels (self w)) (Data.index_in_test_epoch (self w)) stop).
Proof.
  pose proof (next_valid_batch_eq w n) as Hv.
  pose proof (next_test_batch_eq w n) as Ht.
  cbv zeta in Hv, Ht.
  repeat split.
  - intros Hover.
    replace (_ >? _) with true in Hv by (symmetry; apply Z.gtb_lt; lia).
    eexists _, _, _. split; [exact Hv|]. open_world w. reflexivity.
  - intros Hover.
    replace (_ >? _) with true in Ht by (symmetry; apply Z.gtb_lt; lia).
    eexists _, _, _. split; [exact Ht|]. open_world w. reflexivity.
  - eexists _, _, _, _, _. split; [exact Hv|]. open_world w. repeat split.
  - eexists _, _, _, _, _. split; [exact Ht|]. open_world w. repeat split.
Qed.

(** The validation cursor is at 2 of 3 and 4 more are asked for. *)
Lemma valid_test_batch_overrun_witness :
  exists w' labels images,
    Data.next_valid_batch 4 (Examples.data3 0 2 0) = (w', Return (labels, images, 2 + 1, 1)) /\
    Data.index_in_valid_epoch (self w') = 2 + 1.
Proof.
  apply (proj1 (valid_test_batch_overrun (Examples.data3 0 2 0) 4)).
  cbn. lia.
Defined.

(** ** Shuffles *)

Section Shuffles.

Context {A : Type}.
Implicit Types l k : list A.

Lemma take_indices_in_order l : take_indices l (seq 0 (length l)) = Some l.
Proof.
  apply mapM_Some, Forall2_same_length_lookup. split.
  - now rewrite length_seq.
  - intros i j x Hj Hx. apply lookup_seq in Hj as [-> _]. exact Hx.
Qed.

Lemma take_indices_Permutation l (p q : list nat) k :
  Permutation p q -> take_indices l p = Some k ->
  exists k', take_indices l q = Some k' /\ Permutation k k'.
Proof.
  unfold take_indices. intros Hpq. revert k.
  induction Hpq as [|i p q Hpq IH|i j p|p q r Hpq IH1 Hqr IH2]; intros k Hk.
  - exists k. split; [exact Hk|]. reflexivity.
  - apply mapM_Some in Hk. inversion Hk as [|? y ? k0 Hy Hk0]; subst.
    apply mapM_Some in Hk0. destruct (IH _ Hk0) as (k' & Hk' & Hperm).
    exists (y :: k'). split.
    + apply mapM_Some. constructor; [exact Hy|]. now apply mapM_Some.
    + now constructor.
  - apply mapM_Some in Hk. inversion Hk as [|? y ? k0 Hy Hk0]; subst.
    inversion Hk0 as [|? z ? k1 Hz Hk1]; subst.
    exists (z :: y :: k1). split.
    + apply mapM_Some. repeat constructor; assumption.
    + apply perm_swap.
  - destruct (IH1 _ Hk) as (k1 & Hk1 & Hp1).
    destruct (IH2 _ Hk1) as (k2 & Hk2 & Hp2).
    exists k2. split; [exact Hk2|]. now transitivity k1.
Qed.

(** Indexing by a shuffle of [arange(len)] succeeds and permutes. *)
Lemma take_indices_shuffle l (size : Z) (perm : list nat) :
  Z.of_nat (length l) = size -> shuffle_of size perm ->
  exists l', take_indices l perm = Some l' /\ Permutation l' l /\ length l' = length l.
Proof.
  unfold shuffle_of. intros <- Hperm. rewrite Nat2Z.id in Hperm.
  destruct (take_indices_Permutation l _ _ l (Permutation_sym Hperm)
              (take_indices_in_order l)) as (l' & Hl' & Hp).
  exists l'. split; [exact Hl'|]. split.
  - now symmetry.
  - symmetry. now apply Permutation_length.
Qed.

End Shuffles.

(** ** Runs of training calls inside one pass *)

Lemma train_calls_within (perms : list (list nat)) (b : Z) (w : World Data.t) :
  0 < b ->
  Data.index_in_train_epoch (self w) + Z.of_nat (length perms) * b
    <= Data.num_train_images (self w) ->
  train_calls perms b w =
    (mkWorld (Data.set_index_in_train_epoch
                (Data.index_in_train_epoch (self w) + Z.of_nat (length perms) * b) (self w))
       (stdout w),
     Return (map (fun j => train_batch_at (self w)
                             (Data.index_in_train_epoch (self w) + Z.of_nat j * b) b)
               (seq 0 (length perms)))).
Proof.
  intros Hb. revert w. induction perms as [|perm perms IH]; intros w Hfit.
  - open_world w. cbn. unfold ret, Data.set_index_in_train_epoch. cbn.
    now rewrite Z.add_0_r.
  - cbn [train_calls length] in *. unfold bind at 1.
    rewrite next_train_batch_within by lia.
    unfold bind at 1. rewrite IH; clear IH.
    + open_world w. unfold ret, Data.set_index_in_train_epoch. cbn [self stdout
        Data.train_images Data.train_labels Data.index_in_train_epoch
        Data._num_train_images Data.valid_images Data.valid_labels Data.test_images
        Data.test_labels Data._num_valid_images Data._num_test_images
        Data.train_epochs_completed Data.index_in_valid_epoch Data.index_in_test_epoch].
      replace (i_train + Z.of_nat (S (length perms)) * b)
        with (i_train + b + Z.of_nat (length perms) * b) by lia.
      do 2 f_equal. cbn [seq map]. rewrite Z.mul_0_l, Z.add_0_r. f_equal.
      rewrite <- seq_shift, map_map. apply map_ext. intros j.
      replace (i_train + Z.of_nat (S j) * b) with (i_train + b + Z.of_nat j * b) by lia.
      reflexivity.
    + open_world w. cbn. lia.
Qed.

(** ** C3: what one pass over the train partition returns *)

Lemma pass_calls_fit (size b : Z) :
  0 < b -> 0 <= size -> size / b * b <= size /\ size < size / b * b + b.
Proof.
  intros Hb Hs. pose proof (Z.div_mod size b ltac:(lia)) as Hdm.
  pose proof (Z.mod_pos_bound size b Hb). lia.
Qed.

(** The batches of a pass, laid end to end, are the first [size / b * b]
    labels in their current order: all of them when [b] divides [size]. *)
Lemma batches_cover (d : Data.t) (size b : Z) (k : nat) :
  0 < b -> train_partition size d -> Z.of_nat k = size / b ->
  concat (map fst (map (fun j => train_batch_at d (Z.of_nat j * b) b) (seq 0 k)))
    = take (Z.to_nat (size / b * b)) (Data.train_labels d) /\
  (size mod b = 0 ->
   concat (map fst (map (fun j => train_batch_at d (Z.of_nat j * b) b) (seq 0 k)))
     = Data.train_labels d).
Proof.
  intros Hb (Hn & Hl & Hi) Hk.
  assert (Hs : 0 <= size) by lia.
  destruct (pass_calls_fit size b Hb Hs) as [Hle Hlt].
  assert (Hcat : concat (map fst (map (fun j => train_batch_at d (Z.of_nat j * b) b) (seq 0 k)))
                 = take (Z.to_nat (size / b * b)) (Data.train_labels d)).
  { rewrite map_map. unfold train_batch_at. cbn [fst].
    rewrite slices_concat by lia. now rewrite Hk. }
  split; [exact Hcat|].
  intros Hmod. rewrite Hcat.
  apply take_ge. pose proof (Z.div_mod size b ltac:(lia)). lia.
Qed.

Lemma fresh_pass (w : World Data.t) (size b : Z) (perms : list (list nat)) :
  0 < b -> train_partition size (self w) ->
  Data.index_in_train_epoch (self w) = 0 ->
  Z.of_nat (length perms) = size / b ->
  train_calls perms b w =
    (mkWorld (Data.set_index_in_train_epoch (size / b * b) (self w)) (stdout w),
     Return (map (fun j => train_batch_at (self w) (Z.of_nat j * b) b)
               (seq 0 (length perms)))).
Proof.
  intros Hb (Hn & Hl & Hi) H0 Hk.
  assert (Hs : 0 <= size) by lia.
  destruct (pass_calls_fit size b Hb Hs) as [Hle Hlt].
  rewrite train_calls_within by (rewrite ?H0, ?Hk, ?Hn; lia).
  rewrite H0, Hk. cbn [Z.add]. reflexivity.
Qed.

Lemma later_pass (w : World Data.t) (size b : Z) (perm : list nat)
    (perms : list (list nat)) (images' labels' : list ndarray) :
  0 < b -> b <= size -> train_partition size (self w) ->
  Data.index_in_train_epoch (self w) = size / b * b ->
  Z.of_nat (length (perm :: perms)) = size / b ->
  take_indices (Data.train_images (self w)) perm = Some images' ->
  take_indices (Data.train_labels (self w)) perm = Some labels' ->
  train_calls (perm :: perms) b w =
    (mkWorld (Data.set_index_in_train_epoch (size / b * b)
                (rolled_over (self w) b images' labels')) (stdout w),
     Return (map (fun j => train_batch_at (rolled_over (self w) b images' labels')
                             (Z.of_nat j * b) b)
               (seq 0 (length (perm :: perms))))).
Proof.
  intros Hb Hbs (Hn & Hl & Hi) Hidx Hk Himg Hlab.
  assert (Hs : 0 <= size) by lia.
  destruct (pass_calls_fit size b Hb Hs) as [Hle Hlt].
  cbn [train_calls length] in *. unfold bind at 1.
  rewrite (next_train_batch_rollover w b perm images' labels') by (rewrite ?Hidx, ?Hn; lia || assumption).
  rewrite Hn. replace (b <=? size) with true by (symmetry; apply Z.leb_le; lia).
  unfold bind at 1.
  rewrite train_calls_within; cycle 1.
  { exact Hb. }
  { open_world w. cbn. lia. }
  open_world w. unfold ret, Data.set_index_in_train_epoch.
  cbn [self stdout Data.train_images Data.train_labels Data.index_in_train_epoch
       Data._num_train_images Data.valid_images Data.valid_labels Data.test_images
       Data.test_labels Data._num_valid_images Data._num_test_images
       Data.train_epochs_completed Data.index_in_valid_epoch Data.index_in_test_epoch].
  replace (b + Z.of_nat (length perms) * b) with (size / b * b) by lia.
  do 2 f_equal. cbn [seq map]. rewrite Z.mul_0_l. f_equal.
  rewrite <- seq_shift, map_map. apply map_ext. intros j.
  replace (Z.of_nat (S j) * b) with (b + Z.of_nat j * b) by lia. reflexivity.
Qed.

(** C3, as the code has it. For a train partition of [size] examples and a
    batch size [0 < b <= size], a pass is [size / b] calls, begun either on a
    fresh object (cursor 0) or where the previous pass stopped (cursor
    [size / b * b]). The calls of a pass all return; their batches are the
    consecutive slices of width [b] of the partition in its current order
    (the order the shuffle at the start of the pass left), so laid end to end
    they are its first [size / b * b] examples, each once, and all of the
    partition when [b] divides [size]. [train_epochs_completed] goes up by
    exactly one in a pass that follows another, on its first call, and not at
    all in the first pass; the pass ends where the next one begins. *)
Theorem train_pass_returns_prefix (w : World Data.t) (size b : Z)
    (perms : list (list nat)) :
  0 < b -> b <= size ->
  train_partition size (self w) ->
  Data.index_in_train_epoch (self w) = 0 \/
    Data.index_in_train_epoch (self w) = size / b * b ->
  Z.of_nat (length perms) = size / b ->
  Forall (shuffle_of size) perms ->
  exists w' batches,
    train_calls perms b w = (w', Return batches) /\
    train_partition size (self w') /\
    Data.index_in_train_epoch (self w') = size / b * b /\
    Permutation (Data.train_labels (self w')) (Data.train_labels (self w)) /\
    Permutation (Data.train_images (self w')) (Data.train_images (self w)) /\
    batches = map (fun j => train_batch_at (self w') (Z.of_nat j * b) b)
                (seq 0 (length perms)) /\
    concat (map fst batches)
      = take (Z.to_nat (size / b * b)) (Data.train_labels (self w')) /\
    (size mod b = 0 -> concat (map fst batches) = Data.train_labels (self w')) /\
    Data.train_epochs_completed (self w') =
      Data.train_epochs_completed (self w) +
      (if Data.index_in_train_epoch (self w) =? 0 then 0 else 1).
Proof.
  intros Hb Hbs Hpart Hstart Hk Hperms.
  assert (Hs : 0 <= size) by lia.
  destruct (pass_calls_fit size b Hb Hs) as [Hle Hlt].
  assert (Hk1 : 1 <= size / b) by (apply Z.div_le_lower_bound; lia).
  destruct (Z.eq_dec (Data.index_in_train_epoch (self w)) 0) as [H0|Hne].
  - (* the first pass *)
    eexists _, _. split; [apply (fresh_pass w size b perms); assumption|].
    assert (Hpart' : train_partition size
                       (Data.set_index_in_train_epoch (size / b * b) (self w))).
    { destruct Hpart as (? & ? & ?). open_world w. now repeat split. }
    assert (Hsame : forall j,
               train_batch_at (Data.set_index_in_train_epoch (size / b * b) (self w)) j b
               = train_batch_at (self w) j b).
    { intros j. open_world w. reflexivity. }
    destruct (batches_cover _ size b (length perms) Hb Hpart' Hk) as [Hcat Hall].
    cbn [self]. rewrite H0. cbn [Z.eqb]. rewrite Z.add_0_r.
    erewrite (map_ext (fun j => train_batch_at (self w) _ b)) by (intros; symmetry; apply Hsame).
    repeat split; try (exact Hcat || exact Hall || apply Hpart');
      open_world w; reflexivity.
  - (* a pass after another: its first call overruns and reshuffles *)
    destruct Hstart as [?|Hidx]; [contradiction|].
    destruct perms as [|perm perms]; [cbn in Hk; lia|].
    apply Forall_cons in Hperms as [Hperm _].
    destruct Hpart as (Hn & Hl & Hi).
    destruct (take_indices_shuffle _ size perm Hi Hperm) as (images' & Himg & HPi & Hleni).
    destruct (take_indices_shuffle _ size perm Hl Hperm) as (labels' & Hlab & HPl & Hlenl).
    eexists _, _. split.
    { apply (later_pass w size b perm perms images' labels'); try assumption.
      now repeat split. }
    assert (Hpart' : train_partition size
                       (Data.set_index_in_train_epoch (size / b * b)
                          (rolled_over (self w) b images' labels'))).
    { open_world w. repeat split; cbn; lia. }
    assert (Hsame : forall j,
               train_batch_at (Data.set_index_in_train_epoch (size / b * b)
                                 (rolled_over (self w) b images' labels')) j b
               = train_batch_at (rolled_over (self w) b images' labels') j b).
    { intros j. open_world w. reflexivity. }
    destruct (batches_cover _ size b (length (perm :: perms)) Hb Hpart' Hk) as [Hcat Hall].
    cbn [self].
    replace (Data.index_in_train_epoch (self w) =? 0) with false
      by (symmetry; now apply Z.eqb_neq).
    erewrite (map_ext (fun j => train_batch_at (rolled_over _ _ _ _) _ b))
      by (intros; symmetry; apply Hsame).
    repeat split; try (exact Hcat || exact Hall || apply Hpart');
      open_world w; cbn; (reflexivity || assumption).
Qed.

(** Three examples, batches of one, from a fresh object. *)
Lemma train_pass_returns_prefix_witness :
  exists w' batches,
    train_calls [Examples.rotated; Examples.rotated; Examples.rotated] 1
      (Examples.data3 0 0 0) = (w', Return batches) /\
    concat (map fst batches) = Data.train_labels (self w').
Proof.
  destruct (train_pass_returns_prefix (Examples.data3 0 0 0) 3 1
              [Examples.rotated; Examples.rotated; Examples.rotated])
    as (w' & batches & Hrun & _ & _ & _ & _ & _ & _ & Hall & _).
  - lia.
  - lia.
  - repeat split.
  - left. reflexivity.
  - reflexivity.
  - repeat constructor; unfold shuffle_of, Examples.rotated; cbn;
      apply (Permutation_cons_app [0%nat; 1%nat] []); reflexivity.
  - exists w', batches. split; [exact Hrun|]. apply Hall. reflexivity.
Defined.

(** C3 as stated fails when the batch size does not divide the partition:
    with three examples and batches of two, the first call returns labels 10
    and 11, the second call already counts the epoch as completed and
    reshuffles, and label 12 was never returned in that epoch. *)
Lemma train_pass_skips_tail :
  exists w' batches,
    train_calls [Examples.rotated; Examples.rotated] 2 (Examples.data3 0 0 0)
      = (w', Return batches) /\
    map fst batches = [[Scalar 10; Scalar 11]; [Scalar 12; Scalar 10]] /\
    Data.train_epochs_completed (self w') = 1.
Proof.
  eexists _, _. split; [vm_compute; reflexivity|]. split; reflexivity.
Qed.

(** ** C4: how each cursor moves *)




(** ** C9: image normalisation *)






(** ** Running a method step by step *)

Section Bind.

Context {St A B : Type}.
Variables (m : M St A) (k : A -> M St B) (s s' : St).

Lemma bind_Return (a : A) : m s = (s', Return a) -> bind m k s = k a s'.
Proof. unfold bind. now intros ->. Qed.

Lemma bind_Raise (e : exception) : m s = (s', Raise e) -> bind m k s = (s', Raise e).
Proof. unfold bind. now intros ->. Qed.

End Bind.

(** ** Dictionaries *)

Section DictFacts.

Context {V : Type}.
Implicit Types d : Dict.t V.

Lemma get_set_eq k (v : V) d : Dict.get k (Dict.set k v d) = Some v.
Proof.
  induction d as [|[k' v'] d IH]; cbn.
  - now rewrite String.eqb_refl.
  - destruct (String.eqb k k') eqn:E; cbn; rewrite ?String.eqb_refl, ?E; auto.
Qed.

Lemma get_set_ne k k' (v : V) d : k <> k' -> Dict.get k' (Dict.set k v d) = Dict.get k' d.
Proof.
  intros Hne. induction d as [|[k0 v0] d IH]; cbn.
  - destruct (String.eqb_spec k' k); congruence.
  - destruct (String.eqb_spec k k0) as [->|]; cbn.
    + destruct (String.eqb_spec k' k0); congruence.
    + destruct (String.eqb_spec k' k0); auto.
Qed.

Lemma get_set k k' (v : V) d :
  Dict.get k' (Dict.set k v d) = if String.eqb k k' then Some v else Dict.get k' d.
Proof.
  destruct (String.eqb_spec k k') as [->|Hne].
  - apply get_set_eq.
  - now apply get_set_ne.
Qed.

Lemma mem_get k d : Dict.mem k d = true <-> Dict.get k d <> None.
Proof. unfold Dict.mem. destruct (Dict.get k d); split; congruence. Qed.

Lemma mem_false k d : Dict.mem k d = false <-> Dict.get k d = None.
Proof. unfold Dict.mem. destruct (Dict.get k d); split; congruence. Qed.

Lemma mem_set k k' (v : V) d :
  Dict.mem k' (Dict.set k v d) = String.eqb k k' || Dict.mem k' d.
Proof. unfold Dict.mem. rewrite get_set. now destruct (String.eqb k k'). Qed.

(** [a.items()] written over [b] one by one: the keys of [a] win. *)
Lemma get_fold_set (a d : Dict.t V) k :
  Dict.get k (fold_left (fun b kv => Dict.set (fst kv) (snd kv) b) a d)
  = match Dict.get k (rev a) with
    | Some v => Some v
    | None => Dict.get k d
    end.
Proof.
  revert d. induction a as [|[k0 v0] a IH]; intros d; [reflexivity|].
  cbn [fold_left fst snd rev]. rewrite IH, get_set.
  assert (Happ : forall (l : Dict.t V) k1 v1,
             Dict.get k (l ++ [(k1, v1)])%list
             = match Dict.get k l with
               | Some v => Some v
               | None => if String.eqb k k1 then Some v1 else None
               end).
  { intros l k1 v1. induction l as [|[k2 v2] l IHl]; cbn; [reflexivity|].
    destruct (String.eqb k k2); auto. }
  rewrite Happ, (String.eqb_sym k0 k).
  destruct (Dict.get k (rev a)); [reflexivity|].
  destruct (String.eqb k k0); reflexivity.
Qed.

End DictFacts.

(** ** C5: required keys and defaults *)

Lemma get_set_default key v (d : dict) k :
  Dict.get k (set_default key v d)
  = match Dict.get k d with
    | Some x => Some x
    | None => if String.eqb k key then Some v else None
    end.
Proof.
  unfold set_default, Dict.mem.
  destruct (Dict.get key d) as [x|] eqn:Hkey.
  - destruct (Dict.get k d) eqn:Hk; [reflexivity|].
    destruct (String.eqb_spec k key); [congruence|reflexivity].
  - rewrite get_set, (String.eqb_sym key k).
    destruct (String.eqb_spec k key) as [->|]; [now rewrite Hkey|].
    now destruct (Dict.get k d).
Qed.

Lemma get_fill_unset keys (d : dict) k :
  Dict.get k (fill_unset keys d)
  = match Dict.get k d with
    | Some x => Some x
    | None => if existsb (String.eqb k) keys then Some VNone else None
    end.
Proof.
  unfold fill_unset. revert d. induction keys as [|key keys IH]; intros d; cbn.
  - now destruct (Dict.get k d).
  - rewrite IH, get_set_default. destruct (Dict.get k d); [reflexivity|].
    now destruct (String.eqb k key).
Qed.

(** The loop over the optional keys. *)
Lemma optional_loop (keys : list string) (w : World dict) :
  NoDup keys ->
  for_each keys (fun key =>
    d ← get_self id;
    if negb (Dict.mem key d) then
      set_self (Dict.set key VNone) ;;
      print (key +:+ " in flags, yaml or config dictionary was not found.")
    else ret tt) w
  = (mkWorld (fill_unset keys (self w)) (stdout w ++ not_found_lines keys (self w)),
     Return tt).
Proof.
  intros Hnd. revert w. induction Hnd as [|key keys Hnotin Hnd IH]; intros [d out].
  - cbn. unfold ret, not_found_lines. cbn. now rewrite app_nil_r.
  - cbn [for_each]. unfold fill_unset, not_found_lines in *.
    cbn [fold_left List.filter self stdout] in *.
    assert (Hlater : forall v, List.filter (fun k => negb (Dict.mem k (Dict.set key v d))) keys
                              = List.filter (fun k => negb (Dict.mem k d)) keys).
    { intros v. apply filter_ext_in. intros k Hk. rewrite mem_set.
      destruct (String.eqb_spec key k) as [->|]; [|reflexivity].
      exfalso. apply Hnotin. now apply list_elem_of_In. }
    unfold set_default. destruct (Dict.mem key d) eqn:Hmem.
    + erewrite bind_Return by (unfold bind, get_self, gets; cbn; rewrite Hmem; reflexivity).
      rewrite IH. reflexivity.
    + erewrite bind_Return
        by (unfold bind, get_self, set_self, print, gets, modify; cbn; rewrite Hmem; reflexivity).
      rewrite IH. cbn [self stdout map]. rewrite Hlater, <- app_assoc. reflexivity.
Qed.

Lemma optional_keys_NoDup : NoDup Model.optional_keys.
Proof.
  apply (bool_decide_unpack _). vm_compute. exact I.
Qed.

Lemma check_dict_keys_returns (w : World dict) :
  Dict.mem "MODEL_DIRECTORY" (self w) = true ->
  Dict.mem "SAVE_DIRECTORY" (self w) = true ->
  Model.check_dict_keys w =
    (mkWorld (set_default "NUM_EPOCHS" (VInt 1)
                (set_default "RUN_NUM" (VInt 0) (fill_unset Model.optional_keys (self w))))
       (stdout w ++ not_found_lines Model.optional_keys (self w)),
     Return tt).
Proof.
  intros Hm Hs. unfold Model.check_dict_keys.
  erewrite bind_Return; cycle 1.
  { destruct w as [d out]. cbn [self] in Hm, Hs. unfold Model.crucial_keys. cbn [for_each].
    unfold bind, get_self, gets, ret. cbn -[Dict.mem].
    rewrite Hm. cbn -[Dict.mem]. rewrite Hs. reflexivity. }
  erewrite bind_Return by (apply optional_loop, optional_keys_NoDup).
  unfold bind, get_self, set_self, gets, modify, ret, set_default.
  cbn [self stdout id].
  destruct (Dict.mem "RUN_NUM" (fill_unset Model.optional_keys (self w)));
    cbn [negb self stdout];
    match goal with |- context [Dict.mem "NUM_EPOCHS" ?d] =>
      destruct (Dict.mem "NUM_EPOCHS" d) end; reflexivity.
Qed.



(** ** C1: which sources the merged configuration keeps *)

(** Without a ['YAML_FILE'] flag the configuration dictionary comes back as
    it was passed: the flags are not merged into it. *)
Lemma load_config_yaml_no_yaml_flag (yaml_files : Value.t -> option dict)
    (flags config_dict : dict) (w : World unit) :
  Dict.get "YAML_FILE" flags = None ->
  Model.load_config_yaml yaml_files flags (Some config_dict) w =
    (mkWorld (self w)
       (stdout w ++ ["Yaml File not specified. Using only input flags and config file."]),
     Return (Some config_dict)).
Proof.
  intros Hno. unfold Model.load_config_yaml. rewrite Hno. reflexivity.
Qed.

(** C1 fails on the code. With flags [{"A": 1}] and the dictionary
    [{"B": 4, "C": 5}] (no YAML file named) the result is the dictionary
    alone, without the flag ["A"], although the message printed says flags
    and dictionary are both used. With the specification's YAML file
    [{"A": 2, "B": 3}] named in the flags, the merge of the file raises
    [KeyError] for ["A"], the handler meant for a missing ['YAML_FILE'] takes
    it, and again the dictionary alone comes back. Only when every key of the
    YAML file is in the dictionary are the three sources merged, flags over
    YAML over dictionary. *)
Theorem load_config_yaml_drops_flags :
  Model.load_config_yaml (fun _ => None) [("A", VInt 1)]
    (Some [("B", VInt 4); ("C", VInt 5)]) (mkWorld tt [])
  = (mkWorld tt ["Yaml File not specified. Using only input flags and config file."],
     Return (Some [("B", VInt 4); ("C", VInt 5)])) /\
  Model.load_config_yaml
    (Examples.one_yaml_file "cfg.yml" [("A", VInt 2); ("B", VInt 3)])
    [("A", VInt 1); ("YAML_FILE", VStr "cfg.yml")]
    (Some [("B", VInt 4); ("C", VInt 5)]) (mkWorld tt [])
  = (mkWorld tt ["Yaml File not specified. Using only input flags and config file."],
     Return (Some [("B", VInt 4); ("C", VInt 5)])) /\
  Model.load_config_yaml
    (Examples.one_yaml_file "cfg.yml" [("B", VInt 3)])
    [("A", VInt 1); ("YAML_FILE", VStr "cfg.yml")]
    (Some [("A", VInt 0); ("B", VInt 4); ("C", VInt 5)]) (mkWorld tt [])
  = (mkWorld tt ["Using input flags, config file, and yaml file."],
     Return (Some [("A", VInt 1); ("B", VInt 3); ("C", VInt 5);
                   ("YAML_FILE", VStr "cfg.yml")])).
Proof. repeat split; vm_compute; reflexivity. Qed.

(** ** C10 and C6: the slim restore *)

Section SlimRestore.

Variable checkpoint_files : Value.t -> string + Dict.t (list Z).
Variable format_s : Value.t -> string.


(** The comprehension never raises once the checkpoint could be read; it
    keeps what [acc] held and adds only matching variables under their
    stripped names; with nothing matching it adds nothing. *)
Lemma select_variables_sound {St} (in_file : Dict.t (list Z))
    (variables : list Model.variable) (acc : Dict.t Model.variable) (s : St) :
  exists selected,
    Model.select_variables (Some in_file) variables acc s = (s, Return selected) /\
    (forall name v, Dict.get name selected = Some v ->
       Dict.get name acc = Some v \/
       (In v variables /\ Model.name_in_checkpoint v = Some name /\
        Dict.mem name in_file = true)) /\
    ((forall v name, In v variables -> Model.name_in_checkpoint v = Some name ->
        Dict.mem name in_file = false) ->
     selected = acc).
Proof.
  revert acc. induction variables as [|v variables IH]; intros acc.
  - exists acc. cbn. repeat split; auto.
  - cbn [Model.select_variables].
    destruct (Model.name_in_checkpoint v) as [name|] eqn:Hname.
    + destruct (Dict.mem name in_file) eqn:Hmem.
      * destruct (IH (Dict.set name v acc)) as (sel & Hrun & Hsound & Hnone).
        exists sel. split; [exact Hrun|]. split.
        -- intros k x Hk. destruct (Hsound k x Hk) as [Hacc|(Hin & Hn & Hm)].
           ++ rewrite get_set in Hacc. destruct (String.eqb_spec name k) as [->|].
              ** injection Hacc as <-. right. cbn. auto.
              ** now left.
           ++ right. cbn. auto.
        -- intros Hno. specialize (Hno v name (or_introl eq_refl) Hname). congruence.
      * destruct (IH acc) as (sel & Hrun & Hsound & Hnone).
        exists sel. split; [exact Hrun|]. split.
        -- intros k x Hk. destruct (Hsound k x Hk) as [Hacc|(Hin & Hn & Hm)];
             [now left|right; cbn; auto].
        -- intros Hno. apply Hnone. intros v' n' Hin. apply Hno. now right.
    + destruct (IH acc) as (sel & Hrun & Hsound & Hnone).
      exists sel. split; [exact Hrun|]. split.
      * intros k x Hk. destruct (Hsound k x Hk) as [Hacc|(Hin & Hn & Hm)];
          [now left|right; cbn; auto].
      * intros Hno. apply Hnone. intros v' n' Hin. apply Hno. now right.
Qed.


End SlimRestore.






(** ** C8: [convnet] and [deconvnet] *)

Section Loops.

Context {St : Type}.

Lemma bind_ext {A B} (m : M St A) (k1 k2 : A -> M St B) (s : St) :
  (forall a s', k1 a s' = k2 a s') -> bind m k1 s = bind m k2 s.
Proof. intros H. unfold bind. destruct (m s) as [s' [a|e]]; auto. Qed.

Lemma for_each_ext {A} (l : list A) (f g : A -> M St unit) (s : St) :
  (forall a s', f a s' = g a s') -> for_each l f s = for_each l g s.
Proof.
  intros H. revert s. induction l as [|a l IH]; intros s; [reflexivity|].
  cbn [for_each]. unfold bind. rewrite H. destruct (g a s) as [s' [[]|e]]; auto.
Qed.

Lemma for_each_map {A B} (h : A -> B) (l : list A) (f : B -> M St unit) (s : St) :
  for_each (map h l) f s = for_each l (fun a => f (h a)) s.
Proof.
  revert s. induction l as [|a l IH]; intros s; [reflexivity|].
  cbn [for_each map]. apply bind_ext. intros _ s'. apply IH.
Qed.

(** The indexed loop of [convnet] and [deconvnet] over lists of one length
    is a loop over the tuples of their entries. *)
Lemma stack_loop {A1 A2 A3 A4 A5 A6 A7 A8}
    (layer : A1 -> A2 -> A3 -> A4 -> A5 -> A6 -> A7 -> A8 -> M St unit)
    (l1 : list A1) (l2 : list A2) (l3 : list A3) (l4 : list A4) (l5 : list A5)
    (l6 : list A6) (l7 : list A7) (l8 : list A8) (s : St) :
  length l2 = length l1 -> length l3 = length l1 -> length l4 = length l1 ->
  length l5 = length l1 -> length l6 = length l1 -> length l7 = length l1 ->
  length l8 = length l1 ->
  for_each (seq 0 (length l1)) (fun l =>
    x1 ← Layers.index l1 l;
    x2 ← Layers.index l2 l;
    x3 ← Layers.index l3 l;
    x4 ← Layers.index l4 l;
    x5 ← Layers.index l5 l;
    x6 ← Layers.index l6 l;
    x7 ← Layers.index l7 l;
    x8 ← Layers.index l8 l;
    layer x1 x2 x3 x4 x5 x6 x7 x8) s
  = for_each (zip l1 (zip l2 (zip l3 (zip l4 (zip l5 (zip l6 (zip l7 l8)))))))
      (fun '(x1, (x2, (x3, (x4, (x5, (x6, (x7, x8))))))) =>
         layer x1 x2 x3 x4 x5 x6 x7 x8) s.
Proof.
  revert l2 l3 l4 l5 l6 l7 l8 s.
  induction l1 as [|x1 l1 IH];
    intros [|x2 l2] [|x3 l3] [|x4 l4] [|x5 l5] [|x6 l6] [|x7 l7] [|x8 l8] s;
    cbn [length]; intros H2 H3 H4 H5 H6 H7 H8; try discriminate; [reflexivity|].
  cbn [seq for_each zip zip_with].
  apply bind_ext. intros _ s'.
  rewrite <- seq_shift, for_each_map.
  rewrite <- (IH l2 l3 l4 l5 l6 l7 l8 s') by congruence.
  apply for_each_ext. intros l s''. reflexivity.
Qed.

End Loops.

Section Stacks.

Variable get_shape : Layers.tensor -> list Z.
Variable str_shape : list Z -> string.

Variables filter_size output_channels : list Z.
Variable stride : option (list Layers.number).
Variable padding : option (list string).
Variable activation_fn : option (list (option Layers.activation)).
Variables b_value s_value : option (list (option Layers.number)).
Variable bn : option (list bool).
Variable trainable : bool.
Variable w : World Layers.t.

Lemma supplied_ok_default {A} (depth : nat) (x : A) (l : option (list A)) :
  supplied_ok depth l <-> length (default (replicate depth x) l) = depth.
Proof.
  destruct l as [l|]; cbn; [reflexivity|].
  rewrite length_replicate. tauto.
Qed.

Lemma convnet_agree :
  lengths_agree filter_size output_channels stride padding activation_fn b_value s_value bn ->
  Layers.convnet get_shape str_shape filter_size output_channels stride padding
    activation_fn b_value s_value bn trainable w
  = for_each
      (layer_calls filter_size output_channels stride padding activation_fn b_value s_value bn)
      (fun '(fs, (oc, (st, (pd, (act, (b, (s, bn_l))))))) =>
         Layers.conv2d get_shape str_shape fs oc st pd bn_l act b s trainable) w.
Proof.
  intros (H1 & H2 & H3 & H4 & H5 & H6 & H7).
  apply (supplied_ok_default _ (Layers.Float 1)) in H2.
  apply (supplied_ok_default _ "SAME") in H3.
  apply (supplied_ok_default _ (Some Layers.relu)) in H4.
  apply (supplied_ok_default _ (Some (Layers.Float 0))) in H5.
  apply (supplied_ok_default _ (Some (Layers.Float 1))) in H6.
  apply (supplied_ok_default _ true) in H7.
  unfold Layers.convnet, layer_calls. cbv zeta.
  rewrite H1, H2, H3, H4, H5, H6, H7, Nat.eqb_refl.
  cbv beta iota delta [assert].
  do 7 (unfold bind at 1; unfold ret at 1; cbv beta iota).
  apply (stack_loop (fun fs oc st pd act b s bn_l =>
                       Layers.conv2d get_shape str_shape fs oc st pd bn_l act b s trainable));
    assumption.
Qed.

Lemma deconvnet_agree :
  lengths_agree filter_size output_channels stride padding activation_fn b_value s_value bn ->
  Layers.deconvnet get_shape str_shape filter_size output_channels stride padding
    activation_fn b_value s_value bn trainable w
  = for_each
      (layer_calls filter_size output_channels stride padding activation_fn b_value s_value bn)
      (fun '(fs, (oc, (st, (pd, (act, (b, (s, bn_l))))))) =>
         Layers.deconv2d get_shape str_shape fs oc st pd act b s bn_l trainable) w.
Proof.
  intros (H1 & H2 & H3 & H4 & H5 & H6 & H7).
  apply (supplied_ok_default _ (Layers.Float 1)) in H2.
  apply (supplied_ok_default _ "SAME") in H3.
  apply (supplied_ok_default _ (Some Layers.relu)) in H4.
  apply (supplied_ok_default _ (Some (Layers.Float 0))) in H5.
  apply (supplied_ok_default _ (Some (Layers.Float 1))) in H6.
  apply (supplied_ok_default _ true) in H7.
  unfold Layers.deconvnet, layer_calls. cbv zeta.
  rewrite H1, H2, H3, H4, H5, H6, H7, Nat.eqb_refl.
  cbv beta iota delta [assert].
  do 7 (unfold bind at 1; unfold ret at 1; cbv beta iota).
  apply (stack_loop (fun fs oc st pd act b s bn_l =>
                       Layers.deconv2d get_shape str_shape fs oc st pd act b s bn_l trainable));
    assumption.
Qed.

Lemma layer_calls_length :
  lengths_agree filter_size output_channels stride padding activation_fn b_value s_value bn ->
  length (layer_calls filter_size output_channels stride padding activation_fn b_value
            s_value bn) = length filter_size.
Proof.
  intros (H1 & H2 & H3 & H4 & H5 & H6 & H7).
  apply (supplied_ok_default _ (Layers.Float 1)) in H2.
  apply (supplied_ok_default _ "SAME") in H3.
  apply (supplied_ok_default _ (Some Layers.relu)) in H4.
  apply (supplied_ok_default _ (Some (Layers.Float 0))) in H5.
  apply (supplied_ok_default _ (Some (Layers.Float 1))) in H6.
  apply (supplied_ok_default _ true) in H7.
  unfold layer_calls. cbv zeta. rewrite !length_zip. lia.
Qed.

(** The seven assertions, as one boolean. *)
Lemma lengths_agree_checks :
  let depth := length filter_size in
  lengths_agree filter_size output_channels stride padding activation_fn b_value s_value bn
  <-> (length output_channels =? depth)%nat
      && (length (default (replicate depth (Layers.Float 1)) stride) =? depth)%nat
      && (length (default (replicate depth "SAME") padding) =? depth)%nat
      && (length (default (replicate depth (Some Layers.relu)) activation_fn) =? depth)%nat
      && (length (default (replicate depth (Some (Layers.Float 0))) b_value) =? depth)%nat
      && (length (default (replicate depth (Some (Layers.Float 1))) s_value) =? depth)%nat
      && (length (default (replicate depth true) bn) =? depth)%nat = true.
Proof.
  cbv zeta. unfold lengths_agree. cbv zeta.
  rewrite !andb_true_iff, !Nat.eqb_eq, <- !supplied_ok_default. tauto.
Qed.

Lemma convnet_mismatch :
  ~ lengths_agree filter_size output_channels stride padding activation_fn b_value s_value bn ->
  Layers.convnet get_shape str_shape filter_size output_channels stride padding
    activation_fn b_value s_value bn trainable w = (w, Raise AssertionError).
Proof.
  intros Hbad. rewrite lengths_agree_checks in Hbad. cbv zeta in Hbad.
  unfold Layers.convnet. cbv zeta.
  repeat match goal with
         | |- context [assert (?c)] =>
             destruct c eqn:?; [unfold assert at 1; unfold bind at 1;
                                unfold ret at 1; cbv beta iota | reflexivity]
         end.
  exfalso. apply Hbad. reflexivity.
Qed.

Lemma deconvnet_mismatch :
  ~ lengths_agree filter_size output_channels stride padding activation_fn b_value s_value bn ->
  Layers.deconvnet get_shape str_shape filter_size output_channels stride padding
    activation_fn b_value s_value bn trainable w = (w, Raise AssertionError).
Proof.
  intros Hbad. rewrite lengths_agree_checks in Hbad. cbv zeta in Hbad.
  unfold Layers.deconvnet. cbv zeta.
  repeat match goal with
         | |- context [assert (?c)] =>
             destruct c eqn:?; [unfold assert at 1; unfold bind at 1;
                                unfold ret at 1; cbv beta iota | reflexivity]
         end.
  exfalso. apply Hbad. reflexivity.
Qed.

End Stacks.

(** C8. When some per-layer list given to [convnet] (or [deconvnet]) has a
    length other than the number of filter sizes, the call ends in
    [AssertionError] with the builder exactly as it was: no counter moved, no
    layer appended, nothing printed. Otherwise the call is the run of
    [conv2d] (or [deconv2d]) over the per-layer argument tuples in list
    order, one call per filter size, stopping only if one of these calls
    itself raises. *)
Theorem convnet_deconvnet_lengths
    (get_shape : Layers.tensor -> list Z) (str_shape : list Z -> string)
    (filter_size output_channels : list Z) (stride : option (list Layers.number))
    (padding : option (list string))
    (activation_fn : option (list (option Layers.activation)))
    (b_value s_value : option (list (option Layers.number))) (bn : option (list bool))
    (trainable : bool) (w : World Layers.t) :
  (~ lengths_agree filter_size output_channels stride padding activation_fn b_value s_value bn ->
   Layers.convnet get_shape str_shape filter_size output_channels stride padding
     activation_fn b_value s_value bn trainable w = (w, Raise AssertionError) /\
   Layers.deconvnet get_shape str_shape filter_size output_channels stride padding
     activation_fn b_value s_value bn trainable w = (w, Raise AssertionError)) /\
  (lengths_agree filter_size output_channels stride padding activation_fn b_value s_value bn ->
   length (layer_calls filter_size output_channels stride padding activation_fn b_value
             s_value bn) = length filter_size /\
   Layers.convnet get_shape str_shape filter_size output_channels stride padding
     activation_fn b_value s_value bn trainable w
   = for_each
       (layer_calls filter_size output_channels stride padding activation_fn b_value
          s_value bn)
       (fun '(fs, (oc, (st, (pd, (act, (b, (s, bn_l))))))) =>
          Layers.conv2d get_shape str_shape fs oc st pd bn_l act b s trainable) w /\
   Layers.deconvnet get_shape str_shape filter_size output_channels stride padding
     activation_fn b_value s_value bn trainable w
   = for_each
       (layer_calls filter_size output_channels stride padding activation_fn b_value
          s_value bn)
       (fun '(fs, (oc, (st, (pd, (act, (b, (s, bn_l))))))) =>
          Layers.deconv2d get_shape str_shape fs oc st pd act b s bn_l trainable) w).
Proof.
  split.
  - intros Hbad. split; [now apply convnet_mismatch | now apply deconvnet_mismatch].
  - intros Hok. split; [now apply layer_calls_length|].
    split; [now apply convnet_agree | now apply deconvnet_agree].
Qed.

(** The specification's example: three filter sizes, two output-channel
    entries. *)
Lemma convnet_deconvnet_lengths_witness :
  Layers.convnet Examples.image_shape Examples.show_shape [3; 3; 1] [16; 32]
    None None None None None None true Examples.fresh_builder
  = (Examples.fresh_builder, Raise AssertionError).
Proof.
  apply (convnet_deconvnet_lengths Examples.image_shape Examples.show_shape [3; 3; 1] [16; 32]
           None None None None None None true Examples.fresh_builder).
  intros (Hlen & _). discriminate Hlen.
Defined.

(** Two layers with the default per-layer arguments. *)
Example convnet_two_layers :
  exists w',
    Layers.convnet Examples.image_shape Examples.show_shape [3; 5] [16; 32]
      None None None None None None true Examples.fresh_builder = (w', Return tt) /\
    Layers.scopes (Layers.input (self w')) = ["conv_1"; "conv_2"] /\
    Layers.operations (Layers.input (self w'))
    = [Layers.Conv2d 3 16 (Layers.Float 1) "SAME" true (Some (Layers.Float 0))
         (Some (Layers.Float 1)) (Some Layers.relu) true;
       Layers.Conv2d 5 32 (Layers.Float 1) "SAME" true (Some (Layers.Float 0))
         (Some (Layers.Float 1)) (Some Layers.relu) true] /\
    stdout w' = ["conv_1 output: (64, 28, 28, 3)"; "conv_2 output: (64, 28, 28, 3)"].
Proof. eexists. split; [vm_compute; reflexivity|]. repeat split. Qed.

(** ** C7: scope names *)

(** C7 fails on the code. [avgpool] counts its calls under ['ap'] but forms
    its scope name from the ['mp'] counter, which only [maxpool] moves: two
    average-pooling layers in a row get the same scope name, and the number
    in it is the count of max-pooling layers so far. [maxpool], which names
    its scope from the counter it has just moved, does not repeat a name. *)
Theorem avgpool_scope_names_collide
    (get_shape : Layers.tensor -> list Z) (str_shape : list Z -> string) (name : string) :
  let builder := mkWorld (Layers.__init__ (Layers.Placeholder name)) [] in
  let avgpool := Layers.avgpool get_shape str_shape 2 None false in
  let maxpool := Layers.maxpool get_shape str_shape 2 None false in
  let scopes_after (calls : M (World Layers.t) unit) :=
    Layers.scopes (Layers.input (self (fst (calls builder)))) in
  scopes_after (avgpool ;; avgpool) = ["avgpool_0"; "avgpool_0"] /\
  scopes_after (maxpool ;; avgpool ;; avgpool) = ["maxpool_1"; "avgpool_1"; "avgpool_1"] /\
  scopes_after (maxpool ;; maxpool) = ["maxpool_1"; "maxpool_2"] /\
  Layers.count (self (fst ((avgpool ;; avgpool) builder))) !! "ap" = Some 2.
Proof. cbv zeta. repeat split; vm_compute; reflexivity. Qed.

(** * Further properties of the code *)

(** ** Slices that meet *)

Section MoreSlices.

Context {A : Type}.
Implicit Types l : list A.

Lemma slice_nonneg l (a b : Z) :
  0 <= a -> 0 <= b ->
  slice l a b =
    take (Z.to_nat (Z.min b (Z.of_nat (length l)) - Z.min a (Z.of_nat (length l))))
      (drop (Z.to_nat (Z.min a (Z.of_nat (length l)))) l).
Proof.
  intros Ha Hb. unfold slice, slice_index.
  destruct (Z.ltb_spec a 0); [lia|]. destruct (Z.ltb_spec b 0); [lia|]. reflexivity.
Qed.

Lemma slice_app l (a b c : Z) :
  0 <= a -> a <= b -> b <= c -> (slice l a b ++ slice l b c)%list = slice l a c.
Proof.
  intros Ha Hab Hbc. rewrite !slice_nonneg by lia.
  set (n := Z.of_nat (length l)).
  replace (Z.to_nat (Z.min b n)) with
    (Z.to_nat (Z.min a n) + Z.to_nat (Z.min b n - Z.min a n))%nat by lia.
  rewrite <- drop_drop, take_take_drop. f_equal. lia.
Qed.

Lemma slice_to_end l (a c : Z) :
  0 <= a -> Z.of_nat (length l) <= c -> slice l a c = drop (Z.to_nat a) l.
Proof.
  intros Ha Hc. rewrite slice_nonneg by lia.
  rewrite (Z.min_r c) by lia.
  destruct (Z.le_gt_cases a (Z.of_nat (length l))).
  - rewrite Z.min_l by lia. apply take_ge. rewrite length_drop. lia.
  - rewrite Z.min_r by lia. rewrite Z.sub_diag. cbn [Z.to_nat take].
    symmetry. apply drop_ge. lia.
Qed.

Lemma slice_split l (n : Z) :
  (slice l 0 n ++ slice l n (Z.of_nat (length l)))%list = l.
Proof.
  unfold slice, slice_index. cbn [Z.ltb Z.compare].
  set (len := Z.of_nat (length l)).
  destruct (Z.ltb_spec n 0); destruct (Z.ltb_spec len 0); try lia.
  - rewrite Z.min_l, Z.min_id, Z.sub_0_r by lia. cbn [Z.to_nat drop].
    replace (Z.to_nat (len - Z.max (n + len) 0))
      with (length l - Z.to_nat (Z.max (n + len) 0))%nat by lia.
    rewrite <- (length_drop l), firstn_all. apply take_drop.
  - rewrite (Z.min_l 0), Z.min_id, Z.sub_0_r by lia. cbn [Z.to_nat drop].
    replace (Z.to_nat (len - Z.min n len))
      with (length l - Z.to_nat (Z.min n len))%nat by lia.
    rewrite <- (length_drop l), firstn_all. apply take_drop.
Qed.

End MoreSlices.

(** ** Building a [Data] object *)

(** X1. Whatever fraction is asked for, [Data.__init__] keeps every loaded
    training example exactly once and in order: the validation partition
    followed by the train partition is the loaded training set, for images
    and labels alike, and the two recorded sizes add up to the number of
    loaded labels. The object starts with all cursors and the epoch count at
    0. When the computed train size lies between 0 and the number of
    loaded labels (and there are as many images as labels), each partition
    has exactly its recorded size. *)
Theorem init_partitions_loaded_data
    (train_images train_labels test_images test_labels : list ndarray)
    (valid_percent : float) (d : Data.t) :
  Data.__init__ (train_images, train_labels, test_images, test_labels) valid_percent
    = Some d ->
  (Data.valid_images d ++ Data.train_images d)%list = train_images /\
  (Data.valid_labels d ++ Data.train_labels d)%list = train_labels /\
  Data.test_images d = test_images /\ Data.test_labels d = test_labels /\
  Data.num_train_images d + Data.num_valid_images d = Z.of_nat (length train_labels) /\
  Data.num_test_images d = Z.of_nat (length test_labels) /\
  Data.index_in_train_epoch d = 0 /\ Data.index_in_valid_epoch d = 0 /\
  Data.index_in_test_epoch d = 0 /\ Data.train_epochs_completed d = 0 /\
  (0 <= Data.num_train_images d <= Z.of_nat (length train_labels) ->
   length train_images = length train_labels ->
   train_partition (Data.num_train_images d) d /\
   Z.of_nat (length (Data.valid_labels d)) = Data.num_valid_images d /\
   Z.of_nat (length (Data.valid_images d)) = Data.num_valid_images d).
Proof.
  unfold Data.__init__.
  destruct (floor _) as [num_train|]; [|discriminate].
  unfold Data.split_data, Data.num_valid_images. cbn [Data._num_valid_images].
  intros [= <-].
  unfold train_partition, Data.num_train_images, Data.num_valid_images.
  cbn [Data.train_images Data.train_labels Data.valid_images Data.valid_labels
       Data.test_images Data.test_labels Data._num_train_images Data._num_valid_images
       Data._num_test_images Data.train_epochs_completed Data.index_in_train_epoch
       Data.index_in_valid_epoch Data.index_in_test_epoch].
  repeat split; try apply slice_split; try lia;
    rewrite slice_length; lia.
Qed.

(** Six loaded examples and the default validation fraction, 0.2 (the
    float64 written out). *)
Lemma init_partitions_loaded_data_witness :
  exists d,
    Data.__init__ (Examples.images3 ++ Examples.images3, Examples.labels3 ++ Examples.labels3,
                   [], [])%list 0x1.999999999999ap-3%float = Some d /\
    (Data.valid_labels d ++ Data.train_labels d)%list
      = (Examples.labels3 ++ Examples.labels3)%list /\
    Data.num_train_images d = 4 /\ Data.num_valid_images d = 2.
Proof.
  eexists. split; [vm_compute; reflexivity|].
  split.
  - eapply (init_partitions_loaded_data (Examples.images3 ++ Examples.images3)
              (Examples.labels3 ++ Examples.labels3) [] [] 0x1.999999999999ap-3%float).
    vm_compute. reflexivity.
  - split; reflexivity.
Defined.

(** ** Sweeps over the validation and test partitions *)

(** X2. From a cursor that is not negative, any number [k] of
    [next_valid_batch(n)] calls with [n > 0] all return, and their label
    batches laid end to end are exactly the validation labels from the first
    cursor up to the last: nothing is skipped or returned twice, whether or
    not [n] divides what is left. Every call moves the cursor forward, so
    once [k] reaches the number of labels the calls have returned all labels
    from the first cursor on. Each tuple holds the labels and the normalised
    images of the same positions, and the partition itself is not changed. *)
Theorem valid_batches_consecutive (w : World Data.t) (n : Z) (k : nat) :
  0 < n -> 0 <= Data.index_in_valid_epoch (self w) ->
  exists w' batches,
    valid_calls k n w = (w', Return batches) /\
    length batches = k /\
    Data.valid_labels (self w') = Data.valid_labels (self w) /\
    Data.valid_images (self w') = Data.valid_images (self w) /\
    Data.index_in_valid_epoch (self w) + Z.of_nat k <= Data.index_in_valid_epoch (self w') /\
    concat (map batch_labels batches)
      = slice (Data.valid_labels (self w)) (Data.index_in_valid_epoch (self w))
          (Data.index_in_valid_epoch (self w')) /\
    Forall (fun b : list ndarray * ndarray * Z * Z =>
              let '(labels, images, stop, used) := b in
              (used = n \/ used = 1) /\
              labels = slice (Data.valid_labels (self w)) (stop - used) stop /\
              images = Data.img_norm (Stack (slice (Data.valid_images (self w))
                                               (stop - used) stop))
                         Data.max_val_default) batches /\
    (Z.of_nat (length (Data.valid_labels (self w)))
       <= Data.index_in_valid_epoch (self w) + Z.of_nat k ->
     concat (map batch_labels batches)
       = drop (Z.to_nat (Data.index_in_valid_epoch (self w))) (Data.valid_labels (self w))).
Proof.
  intros Hn. revert w. induction k as [|k IH]; intros w Hc.
  - exists w, []. cbn [valid_calls]. unfold ret. cbn [length map concat].
    repeat split; try lia; try constructor.
    + symmetry. rewrite slice_nonneg by lia.
      replace (_ - _) with 0 by lia. reflexivity.
    + intros Hlen. symmetry. apply drop_ge. lia.
  - cbn [valid_calls].
    pose proof (next_valid_batch_eq w n) as Hstep. cbv zeta in Hstep.
    set (used := if Data.index_in_valid_epoch (self w) + n >? Data.num_valid_images (self w)
                 then 1 else n) in *.
    assert (Hused : used = n \/ used = 1) by (subst used; destruct (_ >? _); auto).
    erewrite bind_Return by exact Hstep.
    set (w1 := mkWorld (Data.set_index_in_valid_epoch
                          (Data.index_in_valid_epoch (self w) + used) (self w)) (stdout w)).
    assert (Hw1 : Data.index_in_valid_epoch (self w1)
                  = Data.index_in_valid_epoch (self w) + used /\
                  Data.valid_labels (self w1) = Data.valid_labels (self w) /\
                  Data.valid_images (self w1) = Data.valid_images (self w))
      by (subst w1; destruct w as [[] ?]; repeat split).
    destruct Hw1 as (Hc1 & Hl1 & Hi1).
    destruct (IH w1) as (w' & batches & Hrun & Hlen & Hl & Hi & Hadv & Hcat & Hall & _);
      [lia|].
    rewrite Hc1, Hl1, Hi1 in *.
    erewrite bind_Return by exact Hrun.
    eexists _, _. split; [reflexivity|].
    assert (Hcat' : concat (map batch_labels
                     ((slice (Data.valid_labels (self w)) (Data.index_in_valid_epoch (self w))
                         (Data.index_in_valid_epoch (self w) + used),
                       Data.img_norm (Stack (slice (Data.valid_images (self w))
                                               (Data.index_in_valid_epoch (self w))
                                               (Data.index_in_valid_epoch (self w) + used)))
                         Data.max_val_default,
                       Data.index_in_valid_epoch (self w) + used, used) :: batches))
                    = slice (Data.valid_labels (self w)) (Data.index_in_valid_epoch (self w))
                        (Data.index_in_valid_epoch (self w'))).
    { cbn [map concat batch_labels fst]. rewrite Hcat. apply slice_app; lia. }
    repeat split; try assumption; try (cbn [length]; lia).
    + constructor; [|exact Hall].
      replace (Data.index_in_valid_epoch (self w) + used - used)
        with (Data.index_in_valid_epoch (self w)) by lia.
      repeat split. exact Hused.
    + intros Hlen'. rewrite Hcat'. apply slice_to_end; lia.
Qed.

(** Three validation examples, batches of two: a batch of two, then one. *)
Lemma valid_batches_consecutive_witness :
  exists w' batches,
    valid_calls 3 2 (Examples.data3 0 0 0) = (w', Return batches) /\
    concat (map batch_labels batches) = Examples.labels3.
Proof.
  destruct (valid_batches_consecutive (Examples.data3 0 0 0) 2 3)
    as (w' & batches & Hrun & _ & _ & _ & _ & _ & _ & Hall); [lia|cbn; lia|].
  exists w', batches. split; [exact Hrun|]. apply Hall. cbn. lia.
Defined.

(** X3. The same holds for [next_test_batch]: from a cursor that is not
    negative, [k] calls with [n > 0] all return, their label batches laid end
    to end are the test labels from the first cursor up to the last, each
    call moves the cursor forward, and after as many calls as there are
    labels every label from the first cursor on has been returned once. In
    addition each call prints the cursor it starts from, one line per call
    in call order. *)
Theorem test_batches_consecutive (w : World Data.t) (n : Z) (k : nat) :
  0 < n -> 0 <= Data.index_in_test_epoch (self w) ->
  exists w' batches,
    test_calls k n w = (w', Return batches) /\
    length batches = k /\
    stdout w' = (stdout w ++ map (fun b : list ndarray * ndarray * Z * Z =>
                                    let '(_, _, stop, used) := b in str (stop - used))
                               batches)%list /\
    Data.test_labels (self w') = Data.test_labels (self w) /\
    Data.test_images (self w') = Data.test_images (self w) /\
    Data.index_in_test_epoch (self w) + Z.of_nat k <= Data.index_in_test_epoch (self w') /\
    concat (map batch_labels batches)
      = slice (Data.test_labels (self w)) (Data.index_in_test_epoch (self w))
          (Data.index_in_test_epoch (self w')) /\
    Forall (fun b : list ndarray * ndarray * Z * Z =>
              let '(labels, images, stop, used) := b in
              (used = n \/ used = 1) /\
              labels = slice (Data.test_labels (self w)) (stop - used) stop /\
              images = Data.img_norm (Stack (slice (Data.test_images (self w))
                                               (stop - used) stop))
                         Data.max_val_default) batches /\
    (Z.of_nat (length (Data.test_labels (self w)))
       <= Data.index_in_test_epoch (self w) + Z.of_nat k ->
     concat (map batch_labels batches)
       = drop (Z.to_nat (Data.index_in_test_epoch (self w))) (Data.test_labels (self w))).
Proof.
  intros Hn. revert w. induction k as [|k IH]; intros w Hc.
  - exists w, []. cbn [test_calls]. unfold ret. cbn [length map concat].
    repeat split; try lia; try constructor.
    + now rewrite app_nil_r.
    + symmetry. rewrite slice_nonneg by lia.
      replace (_ - _) with 0 by lia. reflexivity.
    + intros Hlen. symmetry. apply drop_ge. lia.
  - cbn [test_calls].
    pose proof (next_test_batch_eq w n) as Hstep. cbv zeta in Hstep.
    set (used := if Data.index_in_test_epoch (self w) + n >? Data.num_test_images (self w)
                 then 1 else n) in *.
    assert (Hused : used = n \/ used = 1) by (subst used; destruct (_ >? _); auto).
    erewrite bind_Return by exact Hstep.
    set (w1 := mkWorld (Data.set_index_in_test_epoch
                          (Data.index_in_test_epoch (self w) + used) (self w))
                 (stdout w ++ [str (Data.index_in_test_epoch (self w))])).
    assert (Hw1 : Data.index_in_test_epoch (self w1)
                  = Data.index_in_test_epoch (self w) + used /\
                  Data.test_labels (self w1) = Data.test_labels (self w) /\
                  Data.test_images (self w1) = Data.test_images (self w))
      by (subst w1; destruct w as [[] ?]; repeat split).
    destruct Hw1 as (Hc1 & Hl1 & Hi1).
    destruct (IH w1) as (w' & batches & Hrun & Hlen & Hout & Hl & Hi & Hadv & Hcat & Hall & _);
      [lia|].
    rewrite Hc1, Hl1, Hi1 in *.
    erewrite bind_Return by exact Hrun.
    eexists _, _. split; [reflexivity|].
    assert (Hcat' : concat (map batch_labels
                     ((slice (Data.test_labels (self w)) (Data.index_in_test_epoch (self w))
                         (Data.index_in_test_epoch (self w) + used),
                       Data.img_norm (Stack (slice (Data.test_images (self w))
                                               (Data.index_in_test_epoch (self w))
                                               (Data.index_in_test_epoch (self w) + used)))
                         Data.max_val_default,
                       Data.index_in_test_epoch (self w) + used, used) :: batches))
                    = slice (Data.test_labels (self w)) (Data.index_in_test_epoch (self w))
                        (Data.index_in_test_epoch (self w'))).
    { cbn [map concat batch_labels fst]. rewrite Hcat. apply slice_app; lia. }
    repeat split; try assumption; try (cbn [length]; lia).
    + rewrite Hout. subst w1. cbn [stdout map]. rewrite <- app_assoc. cbn [app].
      do 3 f_equal. lia.
    + constructor; [|exact Hall].
      replace (Data.index_in_test_epoch (self w) + used - used)
        with (Data.index_in_test_epoch (self w)) by lia.
      repeat split. exact Hused.
    + intros Hlen'. rewrite Hcat'. apply slice_to_end; lia.
Qed.

(** Three test examples, batches of two: the cursors 0, 2 and 3 are
    printed. *)
Lemma test_batches_consecutive_witness :
  exists w' batches,
    test_calls 3 2 (Examples.data3 0 0 0) = (w', Return batches) /\
    concat (map batch_labels batches) = Examples.labels3.
Proof.
  destruct (test_batches_consecutive (Examples.data3 0 0 0) 2 3)
    as (w' & batches & Hrun & _ & _ & _ & _ & _ & _ & _ & Hall); [lia|cbn; lia|].
  exists w', batches. split; [exact Hrun|]. apply Hall. cbn. lia.
Defined.

(** ** Training calls keep labels with their images *)

Lemma take_indices_zip {A B} (l1 : list A) (l2 : list B) (p : list nat) l1' l2' :
  take_indices l1 p = Some l1' -> take_indices l2 p = Some l2' ->
  take_indices (zip l1 l2) p = Some (zip l1' l2').
Proof.
  unfold take_indices. revert l1' l2'. induction p as [|i p IH]; intros l1' l2' H1 H2.
  - cbn in *. injection H1 as <-. injection H2 as <-. reflexivity.
  - apply mapM_Some in H1. apply mapM_Some in H2.
    inversion H1 as [|? x ? k1 Hx Hk1]; subst. inversion H2 as [|? y ? k2 Hy Hk2]; subst.
    apply mapM_Some. change (zip (x :: k1) (y :: k2)) with ((x, y) :: zip k1 k2).
    constructor.
    + cbv beta. apply lookup_zip_Some. auto.
    + apply mapM_Some, IH; now apply mapM_Some.
Qed.

(** One call, whatever its batch size: the partition keeps its size, the
    image-label pairs are permuted as pairs, the epoch count moves by at
    most one and the other partitions are left alone. *)
Lemma train_call_keeps_pairs (w : World Data.t) (size : Z) (perm : list nat) (b : Z) :
  train_partition size (self w) -> shuffle_of size perm ->
  let w' := fst (Data.next_train_batch perm b w) in
  train_partition size (self w') /\
  Permutation (zip (Data.train_images (self w')) (Data.train_labels (self w')))
    (zip (Data.train_images (self w)) (Data.train_labels (self w))) /\
  Data.train_epochs_completed (self w) <= Data.train_epochs_completed (self w')
    <= Data.train_epochs_completed (self w) + 1 /\
  Data.valid_labels (self w') = Data.valid_labels (self w) /\
  Data.valid_images (self w') = Data.valid_images (self w) /\
  Data.test_labels (self w') = Data.test_labels (self w) /\
  Data.test_images (self w') = Data.test_images (self w) /\
  Data.index_in_valid_epoch (self w') = Data.index_in_valid_epoch (self w) /\
  Data.index_in_test_epoch (self w') = Data.index_in_test_epoch (self w) /\
  stdout w' = stdout w.
Proof.
  intros (Hn & Hl & Hi) Hperm. cbv zeta.
  destruct (Z.le_gt_cases (Data.index_in_train_epoch (self w) + b)
              (Data.num_train_images (self w))) as [Hin|Hover].
  - rewrite next_train_batch_within by exact Hin.
    open_world w. cbn. repeat split; try assumption; try lia. reflexivity.
  - destruct (take_indices_shuffle _ size perm Hi Hperm) as (images' & Himg & _ & Hleni).
    destruct (take_indices_shuffle _ size perm Hl Hperm) as (labels' & Hlab & _ & Hlenl).
    rewrite (next_train_batch_rollover w b perm images' labels') by (lia || assumption).
    pose proof (take_indices_zip _ _ _ _ _ Himg Hlab) as Hzip.
    assert (Hlz : Z.of_nat (length (zip (Data.train_images (self w))
                                      (Data.train_labels (self w)))) = size)
      by (rewrite length_zip; lia).
    destruct (take_indices_shuffle _ size perm Hlz Hperm) as (pairs' & Hpairs & HP & _).
    assert (pairs' = zip images' labels') by congruence. subst pairs'.
    open_world w. cbn. repeat split; try assumption; try lia; try reflexivity.
    all: destruct (b <=? n_train); cbn; assumption || lia || reflexivity.
Qed.

(** X4. Over any series of [next_train_batch] calls, with any batch sizes
    (also ones that make a call fail its assertion), each drawing a shuffle
    of the partition's indices, the train partition keeps its size and every
    image keeps its label: the image-label pairs after the series are a
    permutation of the pairs before it. The epoch count never goes down and
    rises by at most one per call; the validation and test partitions and
    their cursors are never touched and nothing is printed. *)
Theorem train_calls_keep_pairs (w : World Data.t) (size : Z)
    (calls : list (list nat * Z)) :
  train_partition size (self w) ->
  Forall (fun call => shuffle_of size (fst call)) calls ->
  let w' := after_train_calls calls w in
  train_partition size (self w') /\
  Permutation (zip (Data.train_images (self w')) (Data.train_labels (self w')))
    (zip (Data.train_images (self w)) (Data.train_labels (self w))) /\
  Data.train_epochs_completed (self w) <= Data.train_epochs_completed (self w')
    <= Data.train_epochs_completed (self w) + Z.of_nat (length calls) /\
  Data.valid_labels (self w') = Data.valid_labels (self w) /\
  Data.valid_images (self w') = Data.valid_images (self w) /\
  Data.test_labels (self w') = Data.test_labels (self w) /\
  Data.test_images (self w') = Data.test_images (self w) /\
  Data.index_in_valid_epoch (self w') = Data.index_in_valid_epoch (self w) /\
  Data.index_in_test_epoch (self w') = Data.index_in_test_epoch (self w) /\
  stdout w' = stdout w.
Proof.
  intros Hpart Hcalls. cbv zeta. revert w Hpart.
  induction Hcalls as [|[perm b] calls Hperm Hcalls IH]; intros w Hpart.
  - cbn. repeat split; try apply Hpart; try lia. reflexivity.
  - unfold after_train_calls. cbn [fold_left fst snd length].
    destruct (train_call_keeps_pairs w size perm b Hpart Hperm)
      as (Hp1 & HP1 & He1 & H1 & H2 & H3 & H4 & H5 & H6 & H7).
    destruct (IH _ Hp1) as (Hp2 & HP2 & He2 & G1 & G2 & G3 & G4 & G5 & G6 & G7).
    unfold after_train_calls in *.
    repeat split; try apply Hp2; try congruence; try lia.
    now transitivity (zip (Data.train_images (self (fst (Data.next_train_batch perm b w))))
                       (Data.train_labels (self (fst (Data.next_train_batch perm b w))))).
Qed.

(** Three calls on three examples: one that overruns, one that asks for more
    than there is, one inside the partition. *)
Lemma train_calls_keep_pairs_witness :
  Permutation
    (zip (Data.train_images
            (self (after_train_calls
                     [(Examples.rotated, 2); (Examples.rotated, 5); (Examples.same_order, 1)]
                     (Examples.data3 2 0 0))))
       (Data.train_labels
          (self (after_train_calls
                   [(Examples.rotated, 2); (Examples.rotated, 5); (Examples.same_order, 1)]
                   (Examples.data3 2 0 0)))))
    (zip Examples.images3 Examples.labels3).
Proof.
  apply (train_calls_keep_pairs (Examples.data3 2 0 0) 3
           [(Examples.rotated, 2); (Examples.rotated, 5); (Examples.same_order, 1)]).
  - repeat split.
  - repeat constructor; unfold shuffle_of, Examples.rotated, Examples.same_order; cbn;
      first [reflexivity | apply (Permutation_cons_app [0%nat; 1%nat] []); reflexivity].
Defined.

(** ** Normalisation keeps pixel values apart *)

Lemma pixel_order_check_all (m n : Z) :
  0 <= m -> m < n -> n <= 255 -> pixel_order_check m n = true.
Proof.
  intros Hm Hmn Hn.
  assert (Hall : forallb (fun i => forallb (fun j => implb (i <? j)%nat
                                   (pixel_order_check (Z.of_nat i) (Z.of_nat j)))
                                  (seq 0 256)) (seq 0 256) = true)
    by (vm_compute; reflexivity).
  rewrite forallb_forall in Hall.
  specialize (Hall (Z.to_nat m)). rewrite forallb_forall in Hall.
  specialize (Hall ltac:(apply in_seq; lia) (Z.to_nat n) ltac:(apply in_seq; lia)).
  rewrite !Z2Nat.id in Hall by lia.
  destruct (Nat.ltb_spec (Z.to_nat m) (Z.to_nat n)); [exact Hall|lia].
Qed.

(** X5. On unsigned 8-bit inputs [img_norm] (default [max_val]) is strictly
    increasing in float64 arithmetic: a larger pixel value always gets a
    larger normalised value, so no two pixel values are merged by the
    rounding. *)
Theorem img_norm_increasing (m n : Z) (ym yn : float) :
  0 <= m -> m < n -> n <= 255 ->
  Data.img_norm (Scalar (of_uint8 m)) Data.max_val_default = Scalar ym ->
  Data.img_norm (Scalar (of_uint8 n)) Data.max_val_default = Scalar yn ->
  PrimFloat.ltb ym yn = true.
Proof.
  intros Hm Hmn Hn [= <-] [= <-]. now apply pixel_order_check_all.
Qed.

(** Neighbouring grey levels 127 and 128. *)
Lemma img_norm_increasing_witness :
  exists ym yn,
    Data.img_norm (Scalar (of_uint8 127)) Data.max_val_default = Scalar ym /\
    Data.img_norm (Scalar (of_uint8 128)) Data.max_val_default = Scalar yn /\
    PrimFloat.ltb ym yn = true.
Proof.
  eexists _, _. split; [reflexivity|]. split; [reflexivity|].
  apply (img_norm_increasing 127 128); try lia; reflexivity.
Defined.

(** ** Merging a YAML mapping into the configuration *)

Lemma merge_cons (k : string) (v0 : Value.t) (rest : list (string * Value.t))
    (w : World dict) :
  Model._merge_a_into_b (VMap EasyDict ((k, v0) :: rest)) w
  = bind (merge_entry k v0) (fun _ => Model._merge_a_into_b (VMap EasyDict rest)) w.
Proof.
  unfold merge_entry. cbn [Model._merge_a_into_b].
  unfold bind, get_self, gets. cbn [id self].
  destruct (Dict.get k (self w)) as [old|]; [|reflexivity].
  destruct (negb (type_is (type old) (type v0))).
  - destruct old; reflexivity.
  - unfold ret. cbv beta iota.
    destruct (type_is (type v0) EDict); [|reflexivity].
    destruct old; reflexivity.
Qed.

Lemma type_is_eq (t1 t2 : pytype) : type_is t1 t2 = true <-> t1 = t2.
Proof. destruct t1, t2; cbn; split; congruence. Qed.

Lemma keys_set_present {V} (k : string) (v old : V) (b : Dict.t V) :
  Dict.get k b = Some old -> Dict.keys (Dict.set k v b) = Dict.keys b.
Proof.
  unfold Dict.keys. induction b as [|[k' v'] b IH]; cbn; [discriminate|].
  destruct (String.eqb_spec k k') as [->|]; cbn; [reflexivity|].
  intros H. now rewrite IH.
Qed.

Lemma same_schema_refl (b : dict) : same_schema b b.
Proof. split; auto. Qed.

Lemma same_schema_trans (b1 b2 b3 : dict) :
  same_schema b1 b2 -> same_schema b2 b3 -> same_schema b1 b3.
Proof. intros [K1 T1] [K2 T2]. split; [congruence|]. intros k. now rewrite T2. Qed.

Lemma same_schema_set (k : string) (v old : Value.t) (b : dict) :
  Dict.get k b = Some old -> type v = type old -> same_schema b (Dict.set k v b).
Proof.
  intros Hget Hty. split; [now apply (keys_set_present k v old)|].
  intros k'. rewrite get_set. destruct (String.eqb_spec k k') as [<-|]; [|reflexivity].
  rewrite Hget. cbn. now rewrite Hty.
Qed.

(** One round of the loop: what it does to [b], and what it needs to go on. *)
Lemma merge_entry_round (k : string) (v0 : Value.t) (w : World dict) :
  same_schema (self w) (self (fst (merge_entry k v0 w))) /\
  (forall u, snd (merge_entry k v0 w) = Return u -> Dict.mem k (self w) = true).
Proof.
  unfold merge_entry, bind, get_self, gets. cbn [id self].
  unfold Dict.mem.
  destruct (Dict.get k (self w)) as [old|] eqn:Hget;
    [|split; [apply same_schema_refl | intros u [=]]].
  split; [|reflexivity].
  destruct (type_is (type old) (type v0)) eqn:Hty; cbn [negb].
  - unfold ret at 1. cbv beta iota. apply type_is_eq in Hty.
    destruct (type_is (type v0) EDict) eqn:Hed.
    + apply type_is_eq in Hed.
      destruct old; try apply same_schema_refl.
      destruct (Model._merge_a_into_b v0 _) as [w' [r|e]]; cbn [fst snd self stdout];
        unfold ret, print, modify, raise; cbn [fst snd self stdout];
        (apply (same_schema_set k _ (VMap cls items)); [exact Hget|];
         destruct cls; cbn in *; congruence).
    + unfold set_self, modify. cbn [fst self].
      apply (same_schema_set k _ old); [exact Hget|congruence].
  - destruct old; try apply same_schema_refl.
    unfold ret at 1. cbv beta iota. cbn [np_array type type_is].
    destruct v0; cbn [np_array type type_is]; unfold set_self, modify; cbn [fst self];
      apply (same_schema_set k _ (VArray dtype l)); auto.
Qed.

Lemma merge_items (items : list (string * Value.t)) (w : World dict) :
  same_schema (self w) (self (fst (Model._merge_a_into_b (VMap EasyDict items) w))) /\
  (forall r, snd (Model._merge_a_into_b (VMap EasyDict items) w) = Return r ->
     r = true /\ Forall (fun item => Dict.mem (fst item) (self w) = true) items).
Proof.
  revert w. induction items as [|[k v0] items IH]; intros w.
  - cbn. split; [apply same_schema_refl|]. intros r [= <-]. auto.
  - rewrite merge_cons. unfold bind.
    destruct (merge_entry_round k v0 w) as [Hs Hmem].
    destruct (merge_entry k v0 w) as [w1 [[]|e]]; cbn [fst snd] in *.
    + destruct (IH w1) as [Hs1 Hr1]. split.
      * eapply same_schema_trans; eassumption.
      * intros r Hr. destruct (Hr1 r Hr) as [-> Hall]. split; [reflexivity|].
        constructor; [now apply (Hmem tt)|].
        eapply Forall_impl; [exact Hall|]. cbn. intros [k' v'] Hk'. cbn in *.
        destruct Hs as [_ Hty]. unfold Dict.mem in *. specialize (Hty k').
        destruct (Dict.get k' (self w1)); [|discriminate].
        destruct (Dict.get k' (self w)); [reflexivity|discriminate].
    + split; [exact Hs|]. intros r [=].
Qed.

(** X6. However [_merge_a_into_b] ends, with a return or with an exception
    part of the way through, [b] still has exactly the keys it had, in the
    same order, and the value under each key still has the type it had: a
    merge can change option values but never the shape of the
    configuration. *)
Theorem merge_keeps_keys_and_types (a : Value.t) (w : World dict) :
  Dict.keys (self (fst (Model._merge_a_into_b a w))) = Dict.keys (self w) /\
  forall k,
    option_map Value.type (Dict.get k (self (fst (Model._merge_a_into_b a w))))
    = option_map Value.type (Dict.get k (self w)).
Proof.
  destruct a as [| | | | | | |[] items]; try (cbn; split; reflexivity).
  apply (merge_items items w).
Qed.

(** X7. [_merge_a_into_b] returns normally from an [EasyDict] only if every
    key of it was already a key of [b], and what it then returns is [b]; a
    YAML mapping with a key that the configuration does not have always
    makes the merge raise. *)
Theorem merge_returns_only_for_known_keys (items : list (string * Value.t))
    (w w' : World dict) (r : bool) :
  Model._merge_a_into_b (VMap EasyDict items) w = (w', Return r) ->
  r = true /\ forall k, In k (Dict.keys items) -> Dict.mem k (self w) = true.
Proof.
  intros Hrun. destruct (merge_items items w) as [_ Hr].
  rewrite Hrun in Hr. destruct (Hr r eq_refl) as [-> Hall]. split; [reflexivity|].
  intros k Hk. unfold Dict.keys in Hk. apply in_map_iff in Hk as ([k' v] & <- & Hin).
  rewrite Forall_forall in Hall. apply (Hall (k', v)). now apply list_elem_of_In.
Qed.

(** A learning rate and a batch size, both already configured. *)
Lemma merge_returns_only_for_known_keys_witness :
  Dict.mem "BATCH" [("LR", VFloat 1); ("BATCH", VInt 32)] = true.
Proof.
  eapply (merge_returns_only_for_known_keys [("LR", VFloat 0.5); ("BATCH", VInt 64)]
            (mkWorld [("LR", VFloat 1); ("BATCH", VInt 32)] [])).
  - vm_compute. reflexivity.
  - cbn. auto.
Defined.

(** ** Flags over the merged configuration *)

Section MoreDictFacts.

Context {V : Type}.
Implicit Types d : Dict.t V.

Lemma get_None_keys k d : Dict.get k d = None <-> ~ In k (Dict.keys d).
Proof.
  unfold Dict.keys. induction d as [|[k' v'] d IH]; cbn; [tauto|].
  destruct (String.eqb_spec k k') as [->|Hne].
  - split; [discriminate|]. intros H. exfalso. apply H. now left.
  - rewrite IH. split; [intros H [?|?]; [congruence|auto]|tauto].
Qed.

Lemma get_app_last k d k1 (v1 : V) :
  Dict.get k (d ++ [(k1, v1)])%list
  = match Dict.get k d with
    | Some v => Some v
    | None => if String.eqb k k1 then Some v1 else None
    end.
Proof.
  induction d as [|[k2 v2] d IH]; cbn; [reflexivity|].
  destruct (String.eqb k k2); auto.
Qed.

Lemma get_rev_NoDup k d : List.NoDup (Dict.keys d) -> Dict.get k (rev d) = Dict.get k d.
Proof.
  unfold Dict.keys. induction d as [|[k' v'] d IH]; cbn; [reflexivity|].
  intros Hnd. inversion Hnd as [|? ? Hnotin Hnd']; subst.
  rewrite get_app_last, IH by assumption.
  destruct (String.eqb_spec k k') as [->|]; [|now destruct (Dict.get k d)].
  now rewrite (proj2 (get_None_keys k' d) Hnotin).
Qed.

Lemma keys_set k (v : V) d :
  Dict.keys (Dict.set k v d) = (Dict.keys d ++ if Dict.mem k d then [] else [k])%list.
Proof.
  unfold Dict.keys, Dict.mem. induction d as [|[k' v'] d IH]; cbn; [reflexivity|].
  destruct (String.eqb_spec k k') as [->|]; cbn.
  - now rewrite app_nil_r.
  - now rewrite IH.
Qed.

Lemma keys_fold_set (a d : Dict.t V) :
  exists added,
    Dict.keys (fold_left (fun b kv => Dict.set (fst kv) (snd kv) b) a d)
    = (Dict.keys d ++ added)%list.
Proof.
  revert d. induction a as [|[k v] a IH]; intros d; cbn [fold_left fst snd].
  - exists []. now rewrite app_nil_r.
  - destruct (IH (Dict.set k v d)) as (added & Hk). rewrite Hk, keys_set.
    eexists. now rewrite <- app_assoc.
Qed.

End MoreDictFacts.

(** X8. [_merge_a_into_b_simple(a, b)] never raises on a dictionary [b]: in
    its result every key of [a] has the value [a] gives it, every other key
    has the value it had in [b], the keys of [b] keep their places and new
    keys are added after them. When [b] is [None] it raises [TypeError],
    unless [a] is empty, when it returns [None]. *)
Theorem merge_simple_overrides {St} (a b : dict) (s : St) :
  List.NoDup (Dict.keys a) ->
  (exists d added,
     Model._merge_a_into_b_simple a (Some b) s = (s, Return (Some d)) /\
     (forall k, Dict.get k d = match Dict.get k a with
                               | Some v => Some v
                               | None => Dict.get k b
                               end) /\
     Dict.keys d = (Dict.keys b ++ added)%list) /\
  Model._merge_a_into_b_simple a None s
  = (s, match a with
        | [] => Return None
        | _ :: _ => Raise (TypeError "'NoneType' object does not support item assignment")
        end).
Proof.
  intros Hnd. split.
  - destruct (keys_fold_set a b) as (added & Hkeys).
    eexists _, added. split; [reflexivity|]. split; [|exact Hkeys].
    intros k. rewrite get_fold_set, get_rev_NoDup by exact Hnd. reflexivity.
  - destruct a; reflexivity.
Qed.

(** Two flags over a configuration of two options. *)
Lemma merge_simple_overrides_witness :
  exists d,
    Model._merge_a_into_b_simple [("GPU", VInt 1); ("SEED", VInt 7)]
      (Some [("SEED", VInt 0); ("LR", VFloat 1)]) tt = (tt, Return (Some d)) /\
    Dict.get "SEED" d = Some (VInt 7) /\ Dict.get "LR" d = Some (VFloat 1) /\
    Dict.get "GPU" d = Some (VInt 1).
Proof.
  destruct (merge_simple_overrides [("GPU", VInt 1); ("SEED", VInt 7)]
              [("SEED", VInt 0); ("LR", VFloat 1)] tt) as [(d & added & Hrun & Hget & _) _].
  - repeat (constructor; [cbn; intuition discriminate|]). constructor.
  - exists d. split; [exact Hrun|]. rewrite !Hget. repeat split.
Defined.

Lemma merge_entry_plain (k : string) (v0 : Value.t) (b : dict) (out : list string) :
  plain_item b (k, v0) ->
  merge_entry k v0 (mkWorld b out) = (mkWorld (Dict.set k v0 b) out, Return tt).
Proof.
  intros (old & Hget & Hty & Hplain). cbn [fst snd] in *.
  unfold merge_entry, bind, get_self, gets. cbn [id self]. rewrite Hget.
  rewrite (proj2 (type_is_eq _ _) Hty). cbn [negb]. unfold ret at 1. cbv beta iota.
  destruct (type_is (type v0) EDict) eqn:Hed; [apply type_is_eq in Hed; contradiction|].
  reflexivity.
Qed.

Lemma merge_plain (items : list (string * Value.t)) (b : dict) (out : list string) :
  Forall (plain_item b) items ->
  Model._merge_a_into_b (VMap EasyDict items) (mkWorld b out)
  = (mkWorld (fold_left (fun b kv => Dict.set (fst kv) (snd kv) b) items b) out, Return true).
Proof.
  revert b. induction items as [|[k v0] items IH]; intros b Hall; [reflexivity|].
  apply Forall_cons in Hall as [Hitem Hall].
  rewrite merge_cons. erewrite bind_Return by (now apply merge_entry_plain).
  cbn [fold_left fst snd]. apply IH.
  eapply Forall_impl; [exact Hall|]. intros [k' v'] (old & Hget & Hty & Hplain).
  cbn [fst snd] in *. unfold plain_item. cbn [fst snd]. rewrite get_set.
  destruct (String.eqb_spec k k') as [->|].
  - exists v0. repeat split; try assumption.
    destruct Hitem as (old0 & Hget0 & Hty0 & _). cbn [fst snd] in *. congruence.
  - exists old. auto.
Qed.

(** X9. When the flags name a YAML file that loads, and every entry of the
    file is a plain (not nested) value for a key the configuration
    dictionary already has with a value of the same type,
    [load_config_yaml] returns the three sources merged with precedence
    flags over YAML over dictionary: each key has the flag's value if the
    flags have it, else the file's value if the file has it, else the
    dictionary's. *)
Theorem load_config_yaml_precedence (yaml_files : Value.t -> option dict)
    (flags config_dict yaml : dict) (yaml_file : Value.t) (w : World unit) :
  List.NoDup (Dict.keys flags) -> List.NoDup (Dict.keys yaml) ->
  Dict.get "YAML_FILE" flags = Some yaml_file ->
  yaml_files yaml_file = Some yaml ->
  Forall (plain_item config_dict) yaml ->
  exists d,
    Model.load_config_yaml yaml_files flags (Some config_dict) w
    = (mkWorld (self w) (stdout w ++ ["Using input flags, config file, and yaml file."]),
       Return (Some d)) /\
    forall k, Dict.get k d = match Dict.get k flags with
                             | Some v => Some v
                             | None => match Dict.get k yaml with
                                       | Some v => Some v
                                       | None => Dict.get k config_dict
                                       end
                             end.
Proof.
  intros Hnf Hny Hflag Hfile Hplain.
  unfold Model.load_config_yaml, on_object, Model.cfg_from_file.
  rewrite Hflag, Hfile.
  unfold bind at 1. rewrite merge_plain by exact Hplain. cbn [self stdout].
  unfold bind, print, modify, Model._merge_a_into_b_simple, ret. cbn [self stdout].
  eexists. split; [reflexivity|].
  intros k. rewrite !get_fold_set, !get_rev_NoDup by assumption. reflexivity.
Qed.

(** The third case of C1's theorem. *)
Lemma load_config_yaml_precedence_witness :
  exists d,
    Model.load_config_yaml (Examples.one_yaml_file "cfg.yml" [("B", VInt 3)])
      [("A", VInt 1); ("YAML_FILE", VStr "cfg.yml")]
      (Some [("A", VInt 0); ("B", VInt 4); ("C", VInt 5)]) (mkWorld tt [])
    = (mkWorld tt ["Using input flags, config file, and yaml file."], Return (Some d)) /\
    Dict.get "A" d = Some (VInt 1) /\ Dict.get "B" d = Some (VInt 3) /\
    Dict.get "C" d = Some (VInt 5).
Proof.
  destruct (load_config_yaml_precedence (Examples.one_yaml_file "cfg.yml" [("B", VInt 3)])
              [("A", VInt 1); ("YAML_FILE", VStr "cfg.yml")]
              [("A", VInt 0); ("B", VInt 4); ("C", VInt 5)] [("B", VInt 3)]
              (VStr "cfg.yml") (mkWorld tt [])) as (d & Hrun & Hget).
  - repeat (constructor; [cbn; intuition discriminate|]). constructor.
  - repeat (constructor; [cbn; intuition discriminate|]). constructor.
  - reflexivity.
  - reflexivity.
  - repeat constructor. exists (VInt 4). repeat split. discriminate.
  - exists d. split; [exact Hrun|]. rewrite !Hget. repeat split.
Defined.

Lemma mem_rev {V} (k : string) (d : Dict.t V) : Dict.mem k (rev d) = Dict.mem k d.
Proof.
  unfold Dict.mem.
  destruct (Dict.get k (rev d)) eqn:H1; destruct (Dict.get k d) eqn:H2; try reflexivity.
  - apply get_None_keys in H2. exfalso. apply H2.
    assert (Hin : In k (Dict.keys (rev d))).
    { destruct (in_dec string_dec k (Dict.keys (rev d))) as [|Hn]; [assumption|].
      apply get_None_keys in Hn. congruence. }
    unfold Dict.keys in *. rewrite map_rev in Hin. now apply in_rev.
  - apply get_None_keys in H1. exfalso. apply H1.
    assert (Hin : In k (Dict.keys d)).
    { destruct (in_dec string_dec k (Dict.keys d)) as [|Hn]; [assumption|].
      apply get_None_keys in Hn. congruence. }
    unfold Dict.keys in *. rewrite map_rev. now apply in_rev in Hin.
Qed.

Lemma same_schema_mem (b b' : dict) (k : string) :
  same_schema b b' -> Dict.mem k b' = Dict.mem k b.
Proof.
  intros [_ Hty]. specialize (Hty k). unfold Dict.mem.
  destruct (Dict.get k b'), (Dict.get k b); try reflexivity; discriminate.
Qed.

(** X10. Whenever [load_config_yaml] returns, it returns a dictionary, and
    every key of that dictionary is a key of the flags or of the
    configuration dictionary it was given: a YAML file can change values but
    can never bring in an option of its own. *)
Theorem load_config_yaml_no_new_keys (yaml_files : Value.t -> option dict)
    (flags : dict) (config_dict : option dict) (w w' : World unit)
    (result : option dict) :
  Model.load_config_yaml yaml_files flags config_dict w = (w', Return result) ->
  exists d,
    result = Some d /\
    forall k, Dict.mem k d = true ->
              Dict.mem k flags = true \/
              exists c, config_dict = Some c /\ Dict.mem k c = true.
Proof.
  unfold Model.load_config_yaml. destruct config_dict as [c|].
  - unfold on_object, bind at 1.
    set (m := match Dict.get "YAML_FILE" flags with
              | Some yaml_file => Model.cfg_from_file yaml_files yaml_file
              | None => raise (KeyError "YAML_FILE")
              end).
    assert (Hm : same_schema c (self (fst (m (mkWorld c (stdout w))))) /\
                 forall r, snd (m (mkWorld c (stdout w))) = Return r -> r = true).
    { subst m. destruct (Dict.get "YAML_FILE" flags) as [yaml_file|].
      - unfold Model.cfg_from_file. destruct (yaml_files yaml_file) as [yaml|].
        + destruct (merge_items yaml (mkWorld c (stdout w))) as [Hs Hr].
          split; [exact Hs|]. intros r Hret. now destruct (Hr r Hret).
        + split; [apply same_schema_refl|intros r [=]].
      - split; [apply same_schema_refl|intros r [=]]. }
    clearbody m. destruct Hm as [Hs Hr].
    destruct (m (mkWorld c (stdout w))) as [w1 [rb|e]]; cbn [fst snd self stdout] in *.
    + rewrite (Hr rb eq_refl). unfold bind, print, modify, Model._merge_a_into_b_simple, ret.
      intros [= _ <-]. eexists. split; [reflexivity|].
      intros k Hk. unfold Dict.mem in Hk. rewrite get_fold_set in Hk.
      destruct (Dict.get k (rev flags)) eqn:Hf.
      * left. rewrite <- mem_rev. unfold Dict.mem. now rewrite Hf.
      * right. exists c. split; [reflexivity|].
        rewrite <- (same_schema_mem c (self w1) k Hs). exact Hk.
    + destruct e; unfold raise, bind, print, modify, ret; try (intros [=]; fail).
      intros [= _ <-]. exists (self w1). split; [reflexivity|].
      intros k Hk. right. exists c. split; [reflexivity|].
      now rewrite <- (same_schema_mem c (self w1) k Hs).
  - unfold bind, print, modify, ret. intros [= _ <-]. exists flags. split; [reflexivity|].
    intros k Hk. now left.
Qed.

(** The specification's example: the YAML key ["A"] is unknown to the
    dictionary. *)
Lemma load_config_yaml_no_new_keys_witness :
  exists d,
    Some [("B", VInt 4); ("C", VInt 5)] = Some d /\
    forall k, Dict.mem k d = true ->
              Dict.mem k [("YAML_FILE", VStr "cfg.yml")] = true \/
              exists c, Some [("B", VInt 4); ("C", VInt 5)] = Some c /\ Dict.mem k c = true.
Proof.
  eapply (load_config_yaml_no_new_keys
            (Examples.one_yaml_file "cfg.yml" [("A", VInt 2); ("B", VInt 3)])
            [("YAML_FILE", VStr "cfg.yml")] (Some [("B", VInt 4); ("C", VInt 5)])
            (mkWorld tt [])).
  vm_compute. reflexivity.
Defined.

(** ** The slim restore: what is selected *)

Lemma prefix_drop_chars (p s : string) :
  String.prefix p s = true -> s = p +:+ drop_chars (String.length p) s.
Proof.
  revert s. induction p as [|c p IH]; intros [|c' s]; cbn;
    try reflexivity; try discriminate.
  destruct (Ascii.ascii_dec c c') as [<-|]; [|discriminate].
  intros H. change (String c s = String c (p +:+ drop_chars (String.length p) s)).
  f_equal. now apply IH.
Qed.

Lemma prefix_app (p rest : string) : String.prefix p (p +:+ rest) = true.
Proof.
  induction p as [|c p IH]; [now destruct rest|].
  change (String c p +:+ rest) with (String c (p +:+ rest)). cbn.
  destruct (Ascii.ascii_dec c c); [exact IH|contradiction].
Qed.

Lemma drop_chars_app (p rest : string) :
  drop_chars (String.length p) (p +:+ rest) = rest.
Proof.
  induction p as [|c p IH]; [now destruct rest|exact IH].
Qed.

Lemma name_in_checkpoint_inj (v1 v2 : Model.variable) (name : string) :
  Model.name_in_checkpoint v1 = Some name -> Model.name_in_checkpoint v2 = Some name ->
  Model.op_name v1 = Model.op_name v2.
Proof.
  unfold Model.name_in_checkpoint.
  destruct (String.prefix "model/" (Model.op_name v1)) eqn:H1; [|discriminate].
  destruct (String.prefix "model/" (Model.op_name v2)) eqn:H2; [|discriminate].
  intros [= E1] [= E2].
  rewrite (prefix_drop_chars _ _ H1), (prefix_drop_chars _ _ H2).
  f_equal. exact (eq_trans E1 (eq_sym E2)).
Qed.

Lemma select_variables_complete {St} (in_file : Dict.t (list Z))
    (variables : list Model.variable) (acc selected : Dict.t Model.variable) (s s' : St)
    (v : Model.variable) (name : string) :
  Model.select_variables (Some in_file) variables acc s = (s', Return selected) ->
  Dict.mem name in_file = true ->
  (forall v', In v' variables -> Model.name_in_checkpoint v' = Some name -> v' = v) ->
  Dict.get name acc = Some v \/ (In v variables /\ Model.name_in_checkpoint v = Some name) ->
  Dict.get name selected = Some v.
Proof.
  intros Hrun Hmem. revert acc Hrun.
  induction variables as [|v0 variables IH]; intros acc Hrun Huniq Hstart.
  - cbn in Hrun. injection Hrun as _ <-. destruct Hstart as [H|[[] _]]. exact H.
  - cbn [Model.select_variables] in Hrun.
    assert (Huniq' : forall v', In v' variables ->
                       Model.name_in_checkpoint v' = Some name -> v' = v)
      by (intros v' Hin; apply Huniq; now right).
    destruct (Model.name_in_checkpoint v0) as [n0|] eqn:Hn0.
    + destruct (Dict.mem n0 in_file) eqn:Hm0.
      * apply (IH _ Hrun Huniq'). rewrite get_set.
        destruct (String.eqb_spec n0 name) as [->|Hne].
        -- left. f_equal. apply Huniq; [now left|exact Hn0].
        -- destruct Hstart as [H|[[<-|Hin] Hname]]; [now left|congruence|now right].
      * apply (IH _ Hrun Huniq').
        destruct Hstart as [H|[[<-|Hin] Hname]]; [now left|congruence|now right].
    + apply (IH _ Hrun Huniq').
      destruct Hstart as [H|[[<-|Hin] Hname]]; [now left|congruence|now right].
Qed.

(** X11. Once the checkpoint file could be read, the selection that
    [_restore_slim] builds misses no match: when no two variables share an
    op name, every variable whose op name starts with ['model/'] and whose
    name without that prefix is in the checkpoint's map is in the selection,
    under the name without the prefix. *)
Theorem slim_selection_complete {St} (in_file : Dict.t (list Z))
    (variables : list Model.variable) (s : St) (v : Model.variable) (rest : string) :
  List.NoDup (map Model.op_name variables) ->
  In v variables ->
  Model.op_name v = "model/" +:+ rest ->
  Dict.mem rest in_file = true ->
  exists selected,
    Model.select_variables (Some in_file) variables [] s = (s, Return selected) /\
    Dict.get rest selected = Some v.
Proof.
  intros Hnd Hin Hname Hmem.
  destruct (select_variables_sound in_file variables [] s) as (sel & Hrun & _).
  exists sel. split; [exact Hrun|].
  assert (Hv : Model.name_in_checkpoint v = Some rest).
  { unfold Model.name_in_checkpoint.
    rewrite Hname, prefix_app, drop_chars_app. reflexivity. }
  apply (select_variables_complete in_file variables [] sel s s v rest Hrun Hmem);
    [|right; auto].
  intros v' Hin' Hv'.
  pose proof (name_in_checkpoint_inj v' v rest Hv' Hv) as Hop.
  clear - Hnd Hin Hin' Hop. induction variables as [|x xs IH]; [destruct Hin|].
  cbn in Hnd. inversion Hnd as [|? ? Hnotin Hnd']; subst.
  destruct Hin as [<-|Hin], Hin' as [<-|Hin'].
  - reflexivity.
  - exfalso. apply Hnotin. rewrite <- Hop. now apply in_map.
  - exfalso. apply Hnotin. rewrite Hop. now apply in_map.
  - now apply IH.
Qed.

(** Two model variables and one outside the model scope; the checkpoint has
    the first. *)
Lemma slim_selection_complete_witness :
  exists selected,
    Model.select_variables (Some [("conv_1/weights", [3; 3; 3; 16])])
      [Model.mk_variable "model/conv_1/weights"; Model.mk_variable "model/fc_1/weights";
       Model.mk_variable "global_step"] [] tt = (tt, Return selected) /\
    Dict.get "conv_1/weights" selected = Some (Model.mk_variable "model/conv_1/weights").
Proof.
  apply (slim_selection_complete [("conv_1/weights", [3; 3; 3; 16])]
           [Model.mk_variable "model/conv_1/weights"; Model.mk_variable "model/fc_1/weights";
            Model.mk_variable "global_step"] tt
           (Model.mk_variable "model/conv_1/weights") "conv_1/weights").
  - repeat (constructor; [cbn; intuition discriminate|]). constructor.
  - now left.
  - reflexivity.
  - reflexivity.
Defined.



(** ** [check_dict_keys] run again *)

Lemma mem_set_default key v (d : dict) k :
  Dict.mem k (set_default key v d) = Dict.mem k d || String.eqb k key.
Proof.
  unfold Dict.mem at 1 2. rewrite get_set_default.
  destruct (Dict.get k d); [reflexivity|]. now destruct (String.eqb k key).
Qed.

Lemma mem_fill_unset keys (d : dict) k :
  Dict.mem k (fill_unset keys d) = Dict.mem k d || existsb (String.eqb k) keys.
Proof.
  unfold Dict.mem at 1 2. rewrite get_fill_unset.
  destruct (Dict.get k d); [reflexivity|]. now destruct (existsb (String.eqb k) keys).
Qed.

Lemma set_default_present key v (d : dict) :
  Dict.mem key d = true -> set_default key v d = d.
Proof. intros H. unfold set_default. now rewrite H. Qed.

Lemma fill_unset_present keys (d : dict) :
  (forall k, In k keys -> Dict.mem k d = true) -> fill_unset keys d = d.
Proof.
  unfold fill_unset. induction keys as [|key keys IH]; intros H; [reflexivity|].
  cbn [fold_left]. rewrite set_default_present by (apply H; now left).
  apply IH. intros k Hk. apply H. now right.
Qed.

Lemma not_found_lines_present keys (d : dict) :
  (forall k, In k keys -> Dict.mem k d = true) -> not_found_lines keys d = [].
Proof.
  unfold not_found_lines. induction keys as [|key keys IH]; intros H; [reflexivity|].
  cbn [List.filter]. rewrite (H key) by now left. cbn [negb].
  apply IH. intros k Hk. apply H. now right.
Qed.

Lemma check_dict_keys_exits (w : World dict) :
  Dict.mem "MODEL_DIRECTORY" (self w) = false \/
  Dict.mem "SAVE_DIRECTORY" (self w) = false ->
  snd (Model.check_dict_keys w) = Raise SystemExit.
Proof.
  intros Hmissing. destruct w as [d out]. cbn [self stdout] in *.
  unfold Model.check_dict_keys, Model.crucial_keys. cbn [for_each].
  unfold bind, get_self, print, gets, modify, ret, raise. cbn -[Dict.mem].
  destruct (Dict.mem "MODEL_DIRECTORY" d) eqn:Hm; [|reflexivity].
  destruct Hmissing as [?|Hs]; [discriminate|].
  cbn -[Dict.mem]. rewrite Hs. reflexivity.
Qed.

(** X13. A mapping that [check_dict_keys] has returned passes the check
    unchanged: run on it again, whatever has been printed since, the method
    returns, adds and overwrites no key and prints nothing. *)
Theorem check_dict_keys_idempotent (w w' : World dict) (out : list string) :
  Model.check_dict_keys w = (w', Return tt) ->
  Model.check_dict_keys (mkWorld (self w') out) = (mkWorld (self w') out, Return tt).
Proof.
  intros Hrun.
  destruct (Dict.mem "MODEL_DIRECTORY" (self w)) eqn:Hm; cycle 1.
  { pose proof (check_dict_keys_exits w (or_introl Hm)) as Hexit.
    rewrite Hrun in Hexit. discriminate. }
  destruct (Dict.mem "SAVE_DIRECTORY" (self w)) eqn:Hs; cycle 1.
  { pose proof (check_dict_keys_exits w (or_intror Hs)) as Hexit.
    rewrite Hrun in Hexit. discriminate. }
  rewrite (check_dict_keys_returns w Hm Hs) in Hrun.
  apply (f_equal fst) in Hrun. cbn [fst] in Hrun. subst w'. cbn [self].
  set (d' := set_default "NUM_EPOCHS" (VInt 1)
               (set_default "RUN_NUM" (VInt 0) (fill_unset Model.optional_keys (self w)))).
  assert (Hmem : forall k, Dict.mem k d' =
                   Dict.mem k (self w) || existsb (String.eqb k) Model.optional_keys
                   || String.eqb k "RUN_NUM" || String.eqb k "NUM_EPOCHS").
  { intros k. unfold d'. now rewrite !mem_set_default, mem_fill_unset. }
  clearbody d'.
  assert (Hopt : forall k, In k Model.optional_keys -> Dict.mem k d' = true).
  { intros k Hk. rewrite Hmem.
    replace (existsb (String.eqb k) Model.optional_keys) with true.
    - now destruct (Dict.mem k (self w)).
    - symmetry. apply existsb_exists. exists k. split; [exact Hk|apply String.eqb_refl]. }
  rewrite check_dict_keys_returns; cbn [self stdout].
  - rewrite (fill_unset_present _ _ Hopt), (not_found_lines_present _ _ Hopt), app_nil_r.
    rewrite (set_default_present "RUN_NUM" (VInt 0) d')
      by (rewrite Hmem, String.eqb_refl; now rewrite ?orb_true_r).
    rewrite (set_default_present "NUM_EPOCHS" (VInt 1) d')
      by (rewrite Hmem, String.eqb_refl; now rewrite ?orb_true_r).
    reflexivity.
  - rewrite Hmem, Hm. reflexivity.
  - rewrite Hmem, Hs. reflexivity.
Qed.

(** The configuration with both directories and a seed, checked twice. *)
Lemma check_dict_keys_idempotent_witness :
  exists d',
    Model.check_dict_keys
      (mkWorld [("MODEL_DIRECTORY", VStr "conv/"); ("SAVE_DIRECTORY", VStr "/tmp/");
                ("SEED", VInt 7)] []) = (d', Return tt) /\
    Model.check_dict_keys (mkWorld (self d') []) = (mkWorld (self d') [], Return tt).
Proof.
  eexists. split; [vm_compute; reflexivity|].
  apply (check_dict_keys_idempotent
           (mkWorld [("MODEL_DIRECTORY", VStr "conv/"); ("SAVE_DIRECTORY", VStr "/tmp/");
                     ("SEED", VInt 7)] [])).
  vm_compute. reflexivity.
Defined.

(** ** Scope names of the numbered layer methods *)

Section ScopeNames.

Variable get_shape : Layers.tensor -> list Z.
Variable str_shape : list Z -> string.

Lemma reads_ret {St A} (a : A) : reads (ret a : M St A).
Proof. intros s. reflexivity. Qed.

Lemma reads_bind {St A B} (m : M St A) (k : A -> M St B) :
  reads m -> (forall a, reads (k a)) -> reads (bind m k).
Proof.
  intros Hm Hk s. unfold bind. specialize (Hm s).
  destruct (m s) as [s' [a|e]]; cbn [fst] in Hm; subst s'; [apply Hk|reflexivity].
Qed.

Lemma reads_input_dim (i : nat) : reads (Layers.input_dim get_shape i).
Proof.
  intros w. unfold Layers.input_dim, Layers.index, get_self, gets, bind, ret, raise.
  now destruct (get_shape (Layers.input (self w)) !! i).
Qed.
















Lemma lengths_agree_dec (filter_size output_channels : list Z)
    (stride : option (list Layers.number)) (padding : option (list string))
    (activation_fn : option (list (option Layers.activation)))
    (b_value s_value : option (list (option Layers.number))) (bn : option (list bool)) :
  lengths_agree filter_size output_channels stride padding activation_fn b_value s_value bn \/
  ~ lengths_agree filter_size output_channels stride padding activation_fn b_value s_value bn.
Proof.
  rewrite (lengths_agree_checks str_shape). cbv zeta.
  match goal with |- ?c = true \/ _ => destruct c end; [now left|right; discriminate].
Qed.


End ScopeNames.


(** ** The names a stack of layers gets *)

Section StackNames.

Variable get_shape : Layers.tensor -> list Z.
Variable str_shape : list Z -> string.

Lemma bind_reads_Return {St A B} (m : M St A) (k : A -> M St B) (s s' : St) (r : B) :
  reads m -> bind m k s = (s', Return r) -> exists a, k a s = (s', Return r).
Proof.
  intros Hm. unfold bind. specialize (Hm s).
  destruct (m s) as [s1 [a|e]]; cbn [fst] in Hm; subst s1; [|discriminate]. eauto.
Qed.

Lemma append_Return scope op (w w' : World Layers.t) r :
  Layers.append get_shape str_shape scope op w = (w', r) ->
  Layers.input (self w') = Layers.Layer scope op (Layers.input (self w)) /\
  Layers.count (self w') = Layers.count (self w).
Proof.
  unfold Layers.append, print, get_self, set_self, bind, gets, modify.
  cbn. intros [= <- _]. split; reflexivity.
Qed.

(** A numbered method that returns has moved its counter by one and then run
    the rest of its body with the new number. *)
Lemma numbered_method_Return kind (k : Z -> M (World Layers.t) unit)
    (w w' : World Layers.t) (c : Z) :
  (Layers.increment kind ;; n ← Layers.counter kind; k n)%py w = (w', Return tt) ->
  Layers.count (self w) !! kind = Some c ->
  k (c + 1) (mkWorld (Layers.set_count (<[kind := c + 1]> (Layers.count (self w))) (self w))
               (stdout w)) = (w', Return tt).
Proof.
  unfold Layers.increment, Layers.counter, get_self, set_self, bind, gets, modify, ret, raise.
  intros Hrun Hc. cbn [self stdout] in Hrun. rewrite Hc in Hrun.
  cbn [self stdout Layers.count Layers.set_count] in Hrun.
  rewrite lookup_insert_eq in Hrun. exact Hrun.
Qed.

Lemma conv2d_Return fs oc st pd bn_l act b s trainable (w w' : World Layers.t) (c : Z) :
  Layers.conv2d get_shape str_shape fs oc st pd bn_l act b s trainable w = (w', Return tt) ->
  Layers.count (self w) !! "conv" = Some c ->
  Layers.scopes (Layers.input (self w'))
  = (Layers.scopes (Layers.input (self w)) ++ ["conv_" +:+ str (c + 1)])%list /\
  Layers.count (self w') = <["conv" := c + 1]> (Layers.count (self w)).
Proof.
  intros Hrun Hc. unfold Layers.conv2d in Hrun.
  apply (numbered_method_Return _ _ _ _ c) in Hrun; [|exact Hc]. cbv zeta in Hrun.
  apply bind_reads_Return in Hrun as [? Hrun]; [|apply reads_input_dim].
  apply bind_reads_Return in Hrun as [? Hrun].
  - apply append_Return in Hrun as [-> ->]. split; reflexivity.
  - destruct (fs =? 0); [|apply reads_ret].
    apply reads_bind; [apply reads_input_dim|intros ?; apply reads_ret].
Qed.

Lemma deconv2d_Return fs oc st pd act b s bn_l trainable (w w' : World Layers.t) (c : Z) :
  Layers.deconv2d get_shape str_shape fs oc st pd act b s bn_l trainable w = (w', Return tt) ->
  Layers.count (self w) !! "deconv" = Some c ->
  Layers.scopes (Layers.input (self w'))
  = (Layers.scopes (Layers.input (self w)) ++ ["deconv_" +:+ str (c + 1)])%list /\
  Layers.count (self w') = <["deconv" := c + 1]> (Layers.count (self w)).
Proof.
  intros Hrun Hc. unfold Layers.deconv2d in Hrun.
  apply (numbered_method_Return _ _ _ _ c) in Hrun; [|exact Hc]. cbv zeta in Hrun.
  apply bind_reads_Return in Hrun as [? Hrun]; [|apply reads_input_dim].
  apply append_Return in Hrun as [-> ->]. split; reflexivity.
Qed.

(** A loop of calls of one numbered method that returns has named its
    layers with the numbers after the counter's, in call order. *)
Lemma numbered_loop {A} kind prefix (f : A -> M (World Layers.t) unit) :
  (forall a w w' c,
      f a w = (w', Return tt) -> Layers.count (self w) !! kind = Some c ->
      Layers.scopes (Layers.input (self w'))
      = (Layers.scopes (Layers.input (self w)) ++ [prefix +:+ str (c + 1)])%list /\
      Layers.count (self w') = <[kind := c + 1]> (Layers.count (self w))) ->
  forall (l : list A) (w w' : World Layers.t) (c : Z),
    for_each l f w = (w', Return tt) -> Layers.count (self w) !! kind = Some c ->
    Layers.scopes (Layers.input (self w'))
    = (Layers.scopes (Layers.input (self w))
       ++ map (fun i => prefix +:+ str (c + Z.of_nat i)) (seq 1 (length l)))%list /\
    Layers.count (self w') = <[kind := c + Z.of_nat (length l)]> (Layers.count (self w)).
Proof.
  intros Hf. induction l as [|a l IH]; intros w w' c Hrun Hc.
  - cbn in Hrun. injection Hrun as <-. cbn [length seq map].
    rewrite app_nil_r, Z.add_0_r, insert_id by exact Hc. split; reflexivity.
  - cbn [for_each] in Hrun. unfold bind in Hrun.
    destruct (f a w) as [w1 [[]|e]] eqn:Hstep; [|discriminate].
    destruct (Hf a w w1 c Hstep Hc) as [Hs1 Hc1].
    assert (Hc1' : Layers.count (self w1) !! kind = Some (c + 1))
      by (rewrite Hc1; apply lookup_insert_eq).
    destruct (IH w1 w' (c + 1) Hrun Hc1') as [Hs Hcount].
    rewrite Hs, Hs1, Hcount, Hc1, insert_insert_eq, <- app_assoc.
    cbn [length seq map app]. split.
    + change (Z.of_nat 1) with 1. do 2 f_equal.
      rewrite <- (seq_shift (length l) 1), map_map.
      apply map_ext. intros i. do 2 f_equal. lia.
    + f_equal. lia.
Qed.

End StackNames.

(** X15. A [convnet] call that returns has appended one layer per filter
    size and named them ['conv_' + str(c + 1)], ..., ['conv_' + str(c + n)]
    in list order, where [c] is where the ['conv'] counter stood and [n] the
    number of filter sizes; the counter ends at [c + n] and no other counter
    has moved. *)
Theorem convnet_names_in_order (get_shape : Layers.tensor -> list Z)
    (str_shape : list Z -> string) (filter_size output_channels : list Z)
    (stride : option (list Layers.number)) (padding : option (list string))
    (activation_fn : option (list (option Layers.activation)))
    (b_value s_value : option (list (option Layers.number))) (bn : option (list bool))
    (trainable : bool) (w w' : World Layers.t) (c : Z) :
  Layers.convnet get_shape str_shape filter_size output_channels stride padding activation_fn
    b_value s_value bn trainable w = (w', Return tt) ->
  Layers.count (self w) !! "conv" = Some c ->
  Layers.scopes (Layers.input (self w'))
  = (Layers.scopes (Layers.input (self w))
     ++ map (fun i => "conv_" +:+ str (c + Z.of_nat i)) (seq 1 (length filter_size)))%list /\
  Layers.count (self w')
  = <["conv" := c + Z.of_nat (length filter_size)]> (Layers.count (self w)).
Proof.
  intros Hrun Hc.
  pose proof (lengths_agree_dec str_shape filter_size output_channels stride padding
                activation_fn b_value s_value bn) as [Hok|Hbad].
  - rewrite convnet_agree in Hrun by exact Hok.
    rewrite <- (layer_calls_length str_shape _ _ _ _ _ _ _ _ Hok).
    revert Hrun Hc. apply numbered_loop.
    intros (fs & oc & st & pd & act & b & s & bn_l) w0 w1 c0.
    apply conv2d_Return.
  - rewrite convnet_mismatch in Hrun by exact Hbad. discriminate.
Qed.

(** Two layers on a fresh builder: [conv_1] and [conv_2]. *)
Lemma convnet_names_in_order_witness :
  exists w',
    Layers.convnet Examples.image_shape Examples.show_shape [3; 5] [16; 32]
      None None None None None None true Examples.fresh_builder = (w', Return tt) /\
    Layers.scopes (Layers.input (self w')) = ["conv_1"; "conv_2"] /\
    Layers.count (self w') !! "conv" = Some 2.
Proof.
  eexists. split; [vm_compute; reflexivity|].
  match goal with |- context [self ?w'] =>
    destruct (convnet_names_in_order Examples.image_shape Examples.show_shape [3; 5] [16; 32]
                None None None None None None true Examples.fresh_builder w' 0)
      as [Hscopes Hcount]
  end; [vm_compute; reflexivity|reflexivity|].
  rewrite Hscopes, Hcount. split; [reflexivity|apply lookup_insert_eq].
Defined.

(** X16. A [deconvnet] call that returns has appended one layer per filter
    size and named them ['deconv_' + str(c + 1)], ..., ['deconv_' + str(c + n)]
    in list order, where [c] is where the ['deconv'] counter stood; the
    counter ends at [c + n] and no other counter has moved. *)
Theorem deconvnet_names_in_order (get_shape : Layers.tensor -> list Z)
    (str_shape : list Z -> string) (filter_sizes output_channels : list Z)
    (strides : option (list Layers.number)) (padding : option (list string))
    (activation_fn : option (list (option Layers.activation)))
    (b_value s_value : option (list (option Layers.number))) (bn : option (list bool))
    (trainable : bool) (w w' : World Layers.t) (c : Z) :
  Layers.deconvnet get_shape str_shape filter_sizes output_channels strides padding
    activation_fn b_value s_value bn trainable w = (w', Return tt) ->
  Layers.count (self w) !! "deconv" = Some c ->
  Layers.scopes (Layers.input (self w'))
  = (Layers.scopes (Layers.input (self w))
     ++ map (fun i => "deconv_" +:+ str (c + Z.of_nat i)) (seq 1 (length filter_sizes)))%list /\
  Layers.count (self w')
  = <["deconv" := c + Z.of_nat (length filter_sizes)]> (Layers.count (self w)).
Proof.
  intros Hrun Hc.
  pose proof (lengths_agree_dec str_shape filter_sizes output_channels strides padding
                activation_fn b_value s_value bn) as [Hok|Hbad].
  - rewrite deconvnet_agree in Hrun by exact Hok.
    rewrite <- (layer_calls_length str_shape _ _ _ _ _ _ _ _ Hok).
    revert Hrun Hc. apply numbered_loop.
    intros (fs & oc & st & pd & act & b & s & bn_l) w0 w1 c0.
    apply deconv2d_Return.
  - rewrite deconvnet_mismatch in Hrun by exact Hbad. discriminate.
Qed.

(** Three layers on a fresh builder: [deconv_1] to [deconv_3]. *)
Lemma deconvnet_names_in_order_witness :
  exists w',
    Layers.deconvnet Examples.image_shape Examples.show_shape [3; 3; 5] [32; 16; 3]
      None None None None None None true Examples.fresh_builder = (w', Return tt) /\
    Layers.scopes (Layers.input (self w')) = ["deconv_1"; "deconv_2"; "deconv_3"] /\
    Layers.count (self w') !! "deconv" = Some 3.
Proof.
  eexists. split; [vm_compute; reflexivity|].
  match goal with |- context [self ?w'] =>
    destruct (deconvnet_names_in_order Examples.image_shape Examples.show_shape [3; 3; 5]
                [32; 16; 3] None None None None None None true Examples.fresh_builder w' 0)
      as [Hscopes Hcount]
  end; [vm_compute; reflexivity|reflexivity|].
  rewrite Hscopes, Hcount. split; [reflexivity|apply lookup_insert_eq].
Defined.
